(** * R.I.S. 2CVRT live-timing plugin: a shallow embedding and its properties

    Two modules of the repository are embedded:
    - [src/livetiming/ris2cvrt.py]  (XML-preferred, HTML fallback), as [Main];
    - [src/livetiming/service/plugins/ris2cvrt.py] (HTML only), as [Plugin].
    Both share, textually, [_parse_lap_time], [_text], the table locator and
    the HTML row extractor; these are embedded once.

    Conventions.
    - A Python [str] is a list of Unicode code points ([pystr]).
    - Python exceptions are the [Raise] case of [result].
    - The network ([requests.get]), the two parsers ([BeautifulSoup],
      [ET.fromstring]) and [str.lower] are fields of [World]; the value of
      [int(time.time())] is the argument [now] of a cycle.
    - Logging calls ([self.log.*], [self._out_logger.*], [print]) are taken to
      return normally and leave no trace in the model. *)

From Stdlib Require Import ZArith NArith List Bool Lia String Ascii.
From Stdlib Require Import SpecFloat PrimFloat FloatOps.
From stdpp Require Import base option list gmap.

Set Warnings "-inexact-float,-register-all".
Local Open Scope Z_scope.

(** ** Python values *)

Abbreviation pystr := (list N).

(** An ASCII literal as a Python string. *)
Definition py (s : string) : pystr :=
  map (fun a => N_of_ascii a) (list_ascii_of_string s).
Arguments py : simpl never.

Inductive exn :=
| AttributeError
| OverflowError
| ValueError
| HTTPError
| RequestException
| ParseError.

Inductive result (A : Type) :=
| Ok (a : A)
| Raise (e : exn).
Arguments Ok {A} a.
Arguments Raise {A} e.

#[export] Instance result_ret : MRet result := fun A a => Ok a.
#[export] Instance result_bind : MBind result := fun A B f c =>
  match c with Ok a => f a | Raise e => Raise e end.

(** ** Unicode tables used by [str.strip], [\s], [\d] and [int] *)

(** [str.isspace] on one code point (also the class [\s] of [re]). *)
Definition isspace (c : N) : bool :=
  ((9 <=? c) && (c <=? 13) || (28 <=? c) && (c <=? 32) || (c =? 133)
   || (c =? 160) || (c =? 5760) || (8192 <=? c) && (c <=? 8202)
   || (c =? 8232) || (c =? 8233) || (c =? 8239) || (c =? 8287)
   || (c =? 12288))%N.

(** Code points of the digit zero of every decimal-digit block (general
    category Nd, Unicode 14.0); each block is ten consecutive code points. *)
Definition Nd_zeros : list N :=
  [48; 1632; 1776; 1984; 2406; 2534; 2662; 2790; 2918; 3046; 3174; 3302;
   3430; 3558; 3664; 3792; 3872; 4160; 4240; 6112; 6160; 6470; 6608; 6784;
   6800; 6992; 7088; 7232; 7248; 42528; 43216; 43264; 43472; 43504; 43600;
   44016; 65296; 66720; 68912; 69734; 69872; 69942; 70096; 70384; 70736;
   70864; 71248; 71360; 71472; 71904; 72016; 72784; 73040; 73120; 92768;
   92864; 93008; 120782; 120792; 120802; 120812; 120822; 123200; 123632;
   125264; 130032]%N.

(** The decimal value of a code point, when it is a decimal digit. *)
Definition decimal_value (c : N) : option Z :=
  match List.find (fun b => (b <=? c) && (c <? b + 10))%N Nd_zeros with
  | Some b => Some (Z.of_N (c - b))
  | None => None
  end.

(** The class [\d] of [re] on [str] patterns. *)
Definition isdecimal (c : N) : bool :=
  match decimal_value c with Some _ => true | None => false end.

(** ** String methods *)

Fixpoint lstrip (s : pystr) : pystr :=
  match s with
  | c :: r => if isspace c then lstrip r else s
  | [] => []
  end.

Definition rstrip (s : pystr) : pystr := rev (lstrip (rev s)).

Definition strip (s : pystr) : pystr := rstrip (lstrip s).

(** [s.ljust(width, fill)] *)
Definition ljust (width : nat) (fill : N) (s : pystr) : pystr :=
  s ++ repeat fill (width - length s).

Fixpoint startswith (p s : pystr) : bool :=
  match p, s with
  | [], _ => true
  | a :: p', b :: s' => (a =? b)%N && startswith p' s'
  | _ :: _, [] => false
  end.

(** [p in s] for two strings: [p] occurs in [s]. *)
Fixpoint contains (s p : pystr) : bool :=
  startswith p s || match s with [] => false | _ :: s' => contains s' p end.

(** [sep.join(parts)] *)
Fixpoint join (sep : pystr) (parts : list pystr) : pystr :=
  match parts with
  | [] => []
  | [p] => p
  | p :: rest => p ++ sep ++ join sep rest
  end.

(** [s.split(sep)] for a one-character separator: the pieces between the
    occurrences of [sep], at least one piece. *)
Fixpoint split_on (sep : N) (s : pystr) : list pystr :=
  match s with
  | [] => [[]]
  | c :: r =>
      if (c =? sep)%N then [] :: split_on sep r
      else match split_on sep r with
           | p :: ps => (c :: p) :: ps
           | [] => [[c]]
           end
  end.

(** [x in xs] for a list of strings. *)
Definition str_in (x : pystr) (xs : list pystr) : bool := bool_decide (x ∈ xs).

(** [xs.index(x)]: the first position of [x] (used only under [x in xs]). *)
Fixpoint index_of (x : pystr) (xs : list pystr) : option nat :=
  match xs with
  | [] => None
  | y :: ys => if bool_decide (y = x) then Some O else S <$> index_of x ys
  end.

(** ** [int(str)] and [float(int)] *)

(** Digits with single underscores between them; [prev] tells whether the
    previous character was a digit. *)
Fixpoint digits_value (acc : Z) (prev : bool) (s : pystr) : option Z :=
  match s with
  | [] => if prev then Some acc else None
  | c :: r =>
      match decimal_value c with
      | Some d => digits_value (acc * 10 + d) true r
      | None => if (c =? 95)%N && prev then digits_value acc false r else None
      end
  end.

(** [int(s)] in base ten: surrounding whitespace, an optional sign, digits
    (of any script) with single underscores between them.  The interpreter's
    optional cap on the number of digits is not modelled. *)
Definition py_int (s : pystr) : result Z :=
  let t := strip s in
  let v := match t with
           | c :: r =>
               if (c =? 43)%N then digits_value 0 false r
               else if (c =? 45)%N then Z.opp <$> digits_value 0 false r
               else digits_value 0 false t
           | [] => digits_value 0 false t
           end in
  match v with Some z => Ok z | None => Raise ValueError end.

(** The nearest binary64 of an integer (ties to even). *)
Definition Z2float (z : Z) : float :=
  SF2Prim (binary_normalize prec emax z 0 false).

(** The conversion of an [int] operand in mixed arithmetic: round to the
    nearest binary64 (ties to even); too large a value is an [OverflowError]. *)
Definition float_of_int (z : Z) : result float :=
  let f := Z2float z in
  if is_infinity f then Raise OverflowError else Ok f.

(** ** [_parse_lap_time] *)

Fixpoint span_digits (s : pystr) : pystr * pystr :=
  match s with
  | c :: r =>
      if isdecimal c then let '(d, r') := span_digits r in (c :: d, r')
      else ([], s)
  | [] => ([], [])
  end.

(** [$]: the end of the string, or just before a final newline. *)
Definition at_dollar (r : pystr) : bool :=
  match r with
  | [] => true
  | [c] => (c =? 10)%N
  | _ => false
  end.

Definition between (lo hi : nat) (s : pystr) : bool :=
  (lo <=? length s)%nat && (length s <=? hi)%nat.

(** [(?:[.,](\d{1,3}))?$] on the rest of the string: group 3. *)
Definition lap_re_tail (r : pystr) : option (option pystr) :=
  if at_dollar r then Some None
  else match r with
       | c :: r' =>
           if (c =? 46)%N || (c =? 44)%N then
             let '(d, r'') := span_digits r' in
             if between 1 3 d && at_dollar r'' then Some (Some d) else None
           else None
       | [] => None
       end.

(** [re.match(r'^(?:(\d+):)?(\d{1,2})(?:[.,](\d{1,3}))?$', t)]: the groups
    (1, 2, 3) of the match, if any.  The digit runs are delimited by
    non-digits, so the match is unique and no backtracking is left. *)
Definition lap_re_match (t : pystr)
  : option (option pystr * pystr * option pystr) :=
  let '(d1, r1) := span_digits t in
  let without_minutes :=
    if between 1 2 d1
    then match lap_re_tail r1 with
         | Some g3 => Some (None, d1, g3)
         | None => None
         end
    else None in
  match d1, r1 with
  | _ :: _, c :: r1' =>
      if (c =? 58)%N then
        let '(d2, r2) := span_digits r1' in
        if between 1 2 d2
        then match lap_re_tail r2 with
             | Some g3 => Some (Some d1, d2, g3)
             | None => None
             end
        else None
      else without_minutes
  | _, _ => without_minutes
  end.

(** ['-'], em-dash, ['NA'], ['N/A'] *)
Definition sentinels : list pystr := [py "-"; [8212%N]; py "NA"; py "N/A"].

Definition _parse_lap_time (txt : pystr) : result (option float) :=
  if bool_decide (txt = []) then Ok None else
  let t := strip txt in
  if bool_decide (t = []) || str_in t sentinels then Ok None else
  match lap_re_match t with
  | None => Ok None
  | Some (g1, g2, g3) =>
      minutes ← match g1 with Some s => py_int s | None => Ok 0 end;
      seconds ← py_int g2;
      millis ← py_int (ljust 3 48%N (default (py "0") g3));
      frac ← (m ← float_of_int millis; Ok (m / 1000)%float);
      whole ← float_of_int (minutes * 60 + seconds);
      Ok (Some (whole + frac)%float)
  end.

(** ** HTML documents as [BeautifulSoup] presents them *)

(** A parsed document is a tree of tags and strings.  [Comment] stands for
    every string kind that [get_text] leaves out. *)
Inductive node :=
| NavigableString (s : pystr)
| Comment (s : pystr)
| Tag (name : pystr) (children : list node).

(** [el.descendants]: every node below [el], in document order. *)
Fixpoint descendants (el : node) : list node :=
  match el with
  | Tag _ kids =>
      (fix below (ks : list node) : list node :=
         match ks with
         | [] => []
         | k :: ks' => k :: descendants k ++ below ks'
         end) kids
  | _ => []
  end.

Definition has_name (names : list pystr) (d : node) : bool :=
  match d with
  | Tag nm _ => str_in nm names
  | _ => false
  end.

(** [el.find_all(names)] *)
Definition find_all (names : list pystr) (el : node) : list node :=
  List.filter (has_name names) (descendants el).

Definition stripped_string (d : node) : option pystr :=
  match d with
  | NavigableString s =>
      match strip s with
      | [] => None
      | t => Some t
      end
  | _ => None
  end.

(** [el.get_text(separator=' ', strip=True)] *)
Definition get_text (el : node) : pystr :=
  join (py " ") (omap stripped_string (descendants el)).

(** [re.sub(r'\s+', ' ', s)]; [in_run] tells whether the previous character
    was white space. *)
Fixpoint collapse_spaces (in_run : bool) (s : pystr) : pystr :=
  match s with
  | [] => []
  | c :: r =>
      if isspace c
      then (if in_run then collapse_spaces true r
            else 32%N :: collapse_spaces true r)
      else c :: collapse_spaces false r
  end.

Definition _text (el : option node) : pystr :=
  strip (collapse_spaces false
           (match el with Some e => get_text e | None => [] end)).

(** ** Table locator *)

Definition table_keywords : list pystr :=
  [py "pos"; py "now"; py "num"; py "team"; py "drivers"; py "best";
   py "last"].

Definition has_live_headers (lower : pystr -> pystr) (candidate : node)
  : bool :=
  let headers := find_all [py "th"; py "td"] candidate in
  let head_txt :=
    join (py " ") (map (fun h => lower (_text (Some h))) (take 15 headers)) in
  existsb (fun k => contains head_txt k) table_keywords.

Definition locate_table (lower : pystr -> pystr) (soup : node)
  : option node :=
  match List.find (has_live_headers lower) (find_all [py "table"] soup) with
  | Some table => Some table
  | None => head (find_all [py "table"] soup)
  end.

(** ** Column mapper and row extractor (HTML) *)

Record CarRow := {
  car_num : pystr;
  car_state : pystr;
  car_driver : pystr;
  car_last_lap : option float;
  car_best_lap : option float;
}.

Definition header_keywords : list pystr :=
  [py "pos"; py "now"; py "num"; py "#"; py "team"; py "drivers"; py "last";
   py "best"; py "best time"].

(** The labels the header search reads from a row: its [th] cells, or its
    [td] cells when it has no [th]. *)
Definition row_labels (lower : pystr -> pystr) (tr : node) : list pystr :=
  let ths := find_all [py "th"] tr in
  let tds := find_all [py "td"] tr in
  let cells := match ths with [] => tds | _ => ths end in
  map (fun c => lower (_text (Some c))) cells.

Definition is_header_row (lower : pystr -> pystr) (tr : node) : bool :=
  existsb (fun lbl => str_in lbl (row_labels lower tr)) header_keywords.

Fixpoint find_index {A} (f : A -> bool) (l : list A) : option nat :=
  match l with
  | [] => None
  | x :: r => if f x then Some O else S <$> find_index f r
  end.

(** [idx]: the position of the first synonym present. *)
Fixpoint idx (labels : list pystr) (alts : list pystr) : option nat :=
  match alts with
  | [] => None
  | a :: rest => if str_in a labels then index_of a labels else idx labels rest
  end.

Definition pos_alts : list pystr := [py "pos"; py "position"].
Definition state_alts : list pystr := [py "now"; py "state"; py "status"].
Definition num_alts : list pystr :=
  [py "num"; py "#"; py "car"; py "n" ++ [176%N]; py "n" ++ [186%N]].
Definition team_alts : list pystr := [py "team"; py "name"].
Definition drivers_alts : list pystr :=
  [py "drivers"; py "driver"; py "pilote"; py "pilotes"].
Definition last_alts : list pystr :=
  [py "last"; py "last time"; py "last lap"; py "dernier"; py "dernier tour"].
Definition best_alts : list pystr :=
  [py "best"; py "best time"; py "best lap"; py "meilleur";
   py "meilleur tour"].
Definition lap_alts : list pystr := [py "lap"; py "laps"; py "tour"; py "tours"].
Definition gap_alts : list pystr :=
  [py "gap"; py "ecart"; 233%N :: py "cart"].

(** The dictionary [col_idx] built from the header labels. *)
Definition build_col_idx (labels : list pystr) : gmap pystr (option nat) :=
  <[py "gap" := idx labels gap_alts]>
  (<[py "lap" := idx labels lap_alts]>
  (<[py "best" := idx labels best_alts]>
  (<[py "last" := idx labels last_alts]>
  (<[py "drivers" := idx labels drivers_alts]>
  (<[py "team" := idx labels team_alts]>
  (<[py "num" := idx labels num_alts]>
  (<[py "state" := idx labels state_alts]>
  (<[py "pos" := idx labels pos_alts]> ∅)))))))).

(** [get(idx_name)] on the cells [tds] of a row. *)
Definition get (col_idx : gmap pystr (option nat)) (tds : list node)
  (idx_name : pystr) : pystr :=
  match col_idx !! idx_name with
  | Some (Some i) =>
      match tds !! i with
      | Some td => _text (Some td)
      | None => []
      end
  | _ => []
  end.

(** [a or b] on strings. *)
Definition str_or (a b : pystr) : pystr :=
  match a with [] => b | _ => a end.

(** The second loop over [table.find_all('tr')]: [i] is the position of the
    row at hand, [header_pos] that of the header row ([tr is header_row]). *)
Fixpoint data_rows (col_idx : gmap pystr (option nat)) (header_pos : nat)
  (started : bool) (i : nat) (trs : list node) (cars : list CarRow)
  : result (list CarRow) :=
  match trs with
  | [] => Ok cars
  | tr :: rest =>
      if Nat.eqb i header_pos
      then data_rows col_idx header_pos true (S i) rest cars
      else if negb started
      then data_rows col_idx header_pos started (S i) rest cars
      else
        let tds := find_all [py "td"] tr in
        match tds with
        | [] => data_rows col_idx header_pos started (S i) rest cars
        | _ =>
            let num := get col_idx tds (py "num") in
            match num with
            | [] => data_rows col_idx header_pos started (S i) rest cars
            | _ =>
                let team_txt := get col_idx tds (py "team") in
                let drv_txt := get col_idx tds (py "drivers") in
                let who := str_or team_txt drv_txt in
                let last_raw := get col_idx tds (py "last") in
                let best_raw := get col_idx tds (py "best") in
                let st := str_or (get col_idx tds (py "state")) [] in
                last ← _parse_lap_time last_raw;
                best ← _parse_lap_time best_raw;
                data_rows col_idx header_pos started (S i) rest
                  (cars ++ [{| car_num := num; car_state := st;
                               car_driver := who; car_last_lap := last;
                               car_best_lap := best |}])
            end
        end
  end.

(** The body of [if not cars and table:] (resp. [if table:]). *)
Definition html_cars (lower : pystr -> pystr) (table : node)
  : result (list CarRow) :=
  let trs := find_all [py "tr"] table in
  match find_index (is_header_row lower) trs with
  | None => Ok []
  | Some k =>
      match trs !! k with
      | None => Ok []
      | Some header_row =>
          let labels :=
            map (fun c => lower (_text (Some c)))
                (find_all [py "th"; py "td"] header_row) in
          data_rows (build_col_idx labels) k false 0 trs []
      end
  end.

(** ** XML documents as [xml.etree.ElementTree] presents them *)

Inductive Element :=
| mkElement (tag : pystr) (text : option pystr) (subelements : list Element).

Definition tag (e : Element) : pystr :=
  match e with mkElement t _ _ => t end.
Definition etext (e : Element) : option pystr :=
  match e with mkElement _ x _ => x end.
Definition subelements (e : Element) : list Element :=
  match e with mkElement _ _ l => l end.

(** Every element below [e], in document order. *)
Fixpoint iter_below (e : Element) : list Element :=
  match e with
  | mkElement _ _ kids =>
      (fix below (ks : list Element) : list Element :=
         match ks with
         | [] => []
         | k :: ks' => k :: iter_below k ++ below ks'
         end) kids
  end.

Definition tagged (t : pystr) (e : Element) : bool := bool_decide (tag e = t).

(** [e.findall('.//t')], [e.find('.//t')], [e.find('t')], [e.findtext('t')] *)
Definition findall_below (t : pystr) (e : Element) : list Element :=
  List.filter (tagged t) (iter_below e).
Definition find_below (t : pystr) (e : Element) : option Element :=
  head (findall_below t e).
Definition find_child (t : pystr) (e : Element) : option Element :=
  List.find (tagged t) (subelements e).
Definition findtext (t : pystr) (e : Element) : option pystr :=
  match find_child t e with
  | Some c => Some (default [] (etext c))
  | None => None
  end.

(** [a or b] where [a] may be [None]. *)
Definition opt_or (a : option pystr) (b : pystr) : pystr :=
  match a with
  | Some (c :: r) => c :: r
  | _ => b
  end.

(** [root.find('.//lineinfo') or root.find('lineinfo')]: an element without
    subelements is falsy. *)
Definition find_lineinfo (root : Element) : option Element :=
  match find_below (py "lineinfo") root with
  | Some e =>
      match subelements e with
      | [] => find_child (py "lineinfo") root
      | _ => Some e
      end
  | None => find_child (py "lineinfo") root
  end.

Fixpoint map_result {A B} (f : A -> result B) (l : list A) : result (list B) :=
  match l with
  | [] => Ok []
  | x :: r => y ← f x; ys ← map_result f r; Ok (y :: ys)
  end.

(** The value of [remaining] after the block [if remain_txt: ...]. *)
Definition parse_remaining (remain_txt : pystr) : option Z :=
  match remain_txt with
  | [] => None
  | _ =>
      match map_result py_int (split_on 58%N remain_txt) with
      | Ok [h; m; s] => Some (h * 3600 + m * 60 + s)
      | Ok [m; s] => Some (m * 60 + s)
      | Ok [s] => Some s
      | Ok _ => None
      | Raise _ => None
      end
  end.

(** Session name, flag and remaining time read from [<lineinfo>]. *)
Definition xml_session (root : Element)
  : option pystr * option pystr * option Z :=
  match find_lineinfo root with
  | None => (None, None, None)
  | Some lineinfo =>
      let session_name :=
        strip (opt_or (findtext (py "seance") lineinfo)
                      (opt_or (findtext (py "race") lineinfo) [])) in
      let flag :=
        strip (opt_or (findtext (py "messageDC2") lineinfo)
                      (opt_or (findtext (py "messageDC1") lineinfo) [])) in
      let remain_txt := strip (opt_or (findtext (py "remain") lineinfo) []) in
      (Some session_name, Some flag, parse_remaining remain_txt)
  end.

(** The dictionary [children] of a candidate car node. *)
Definition children_dict (lower : pystr -> pystr) (node : Element)
  : gmap pystr pystr :=
  foldl (fun d c => <[lower (tag c) := strip (default [] (etext c))]> d)
        ∅ (subelements node).

(** [cget]: the first non-empty value among the keys [alts], else ['']. *)
Fixpoint cget (children : gmap pystr pystr) (alts : list pystr) : pystr :=
  match alts with
  | [] => []
  | a :: rest =>
      match children !! a with
      | Some (c :: v) => c :: v
      | _ => cget children rest
      end
  end.

Definition xml_num_alts : list pystr :=
  [py "num"; py "number"; py "car"; py "#"; py "n"; py "n" ++ [176%N];
   py "n" ++ [186%N]].
Definition xml_who_alts : list pystr :=
  [py "team"; py "drivers"; py "driver"; py "pilote"].
Definition xml_last_alts : list pystr :=
  [py "last"; py "lastlap"; py "last_time"; py "dernier"].
Definition xml_best_alts : list pystr :=
  [py "best"; py "bestlap"; py "best_time"; py "meilleur"].
Definition xml_state_alts : list pystr := [py "state"; py "now"; py "status"].

(** The loop [for node in car_nodes]. *)
Fixpoint xml_rows (lower : pystr -> pystr) (car_nodes : list Element)
  (cars : list CarRow) : result (list CarRow) :=
  match car_nodes with
  | [] => Ok cars
  | node :: rest =>
      let children := children_dict lower node in
      let num := cget children xml_num_alts in
      let who := cget children xml_who_alts in
      let last_raw := cget children xml_last_alts in
      let best_raw := cget children xml_best_alts in
      let st := str_or (cget children xml_state_alts) [] in
      last ← _parse_lap_time last_raw;
      best ← _parse_lap_time best_raw;
      let row := {| car_num := num; car_state := st; car_driver := who;
                    car_last_lap := last; car_best_lap := best |} in
      match num with
      | [] => xml_rows lower rest cars
      | _ => xml_rows lower rest (cars ++ [row])
      end
  end.

Definition car_tags : list pystr :=
  [py "ligne"; py "line"; py "car"; py "row"; py "item"].

(** The block [if xml_text is not None: try: ... except Exception: cars = []]. *)
Definition xml_cars (lower : pystr -> pystr) (root : Element) : list CarRow :=
  let car_nodes := flat_map (fun t => findall_below t root) car_tags in
  match xml_rows lower car_nodes [] with
  | Ok cars => cars
  | Raise _ => []
  end.

(** ** The service: state, world and output *)

Record Response := {
  status_code : Z;
  text : pystr;
}.

Record World := {
  (** [requests.get(url, timeout=t)]; the first argument counts the requests
      already made in the cycle, so that a URL asked twice may answer
      differently. *)
  requests_get : nat -> pystr -> Z -> result Response;
  BeautifulSoup : pystr -> node;
  ET_fromstring : pystr -> result Element;
  str_lower : pystr -> pystr;
}.

Record Service := {
  _last_fetch_ok : bool;
  _last_session_name : option pystr;
  _last_flag : option pystr;
  _last_remaining : option Z;
}.

Record SessionInfo := {
  name : pystr;
  flag : pystr;
  remaining : option Z;
  clock : Z;
  source_ok : bool;
}.

Record RaceState := {
  cars : list CarRow;
  session : SessionInfo;
}.

(** The state right after [__init__]. *)
Definition init : Service :=
  {| _last_fetch_ok := false; _last_session_name := None;
     _last_flag := None; _last_remaining := None |}.

Definition set_last_fetch_ok (b : bool) (self : Service) : Service :=
  {| _last_fetch_ok := b; _last_session_name := _last_session_name self;
     _last_flag := _last_flag self; _last_remaining := _last_remaining self |}.

(** [r.raise_for_status()] *)
Definition raise_for_status (r : Response) : result unit :=
  if (400 <=? status_code r) && (status_code r <? 600)
  then Raise HTTPError else Ok tt.

(** The ['session'] entry of the returned dictionary. *)
Definition session_of (self : Service) (now : Z) (ok : bool) : SessionInfo :=
  {| name := opt_or (_last_session_name self) (py "2CVRT");
     flag := opt_or (_last_flag self) [];
     remaining := _last_remaining self;
     clock := now;
     source_ok := ok |}.

(** "Keep last known values in case the banner/session is sparse". *)
Definition update_cache (session_name flag : option pystr)
  (remaining : option Z) (self : Service) : Service :=
  {| _last_fetch_ok := _last_fetch_ok self;
     _last_session_name :=
       match session_name with
       | Some (c :: r) => Some (c :: r)
       | _ => _last_session_name self
       end;
     _last_flag :=
       match flag with
       | Some (c :: r) => Some (c :: r)
       | _ => _last_flag self
       end;
     _last_remaining :=
       match remaining with
       | Some z => Some z
       | None => _last_remaining self
       end |}.

(** The dictionary returned on a failed fetch. *)
Definition fetch_failed (self : Service) (now : Z) : RaceState :=
  {| cars := []; session := session_of self now false |}.

(** [requests.get(url, timeout=10)], [raise_for_status()], [r.text] *)
Definition fetch_html (w : World) (n : nat) (url : pystr) : result pystr :=
  r ← requests_get w n url 10;
  _ ← raise_for_status r;
  Ok (text r).

Definition DATA_SOURCE_URL : pystr :=
  py "https://results.ris-timing.be/2cvrt/live/live2025.htm".

(** ** Source selector *)

(** [s] cut at its first [sep]: the part before, and the part after if any. *)
Fixpoint break_at (sep : N) (s : pystr) : pystr * option pystr :=
  match s with
  | [] => ([], None)
  | c :: r =>
      if (c =? sep)%N then ([], Some r)
      else let '(a, b) := break_at sep r in (c :: a, b)
  end.

(** [s.rsplit(sep, 1)]: [s] cut at its last [sep]. *)
Definition rsplit1 (sep : N) (s : pystr) : list pystr :=
  match break_at sep (rev s) with
  | (a, Some b) => [rev b; rev a]
  | (_, None) => [s]
  end.

(** [s.replace(old, new)]; [skip] counts the characters of a replaced
    occurrence still to be passed over. *)
Fixpoint replace_from (old new : pystr) (skip : nat) (s : pystr) : pystr :=
  match s with
  | [] => match old with [] => new | _ => [] end
  | c :: r =>
      match skip with
      | S k => replace_from old new k r
      | O =>
          if startswith old s
          then match old with
               | [] => new ++ c :: replace_from old new O r
               | _ => new ++ replace_from old new (length old - 1) r
               end
          else c :: replace_from old new O r
      end
  end.

Definition replace (old new s : pystr) : pystr := replace_from old new O s.

(** The list [candidates] of derived XML addresses. *)
Definition xml_candidates (url : pystr) : list pystr :=
  let base_no_ext := default [] (head (rsplit1 46%N url)) in
  let filename := default [] (last (rsplit1 47%N url)) in
  (base_no_ext ++ py ".xml")
  :: (if contains filename (py ".")
      then [replace filename
              (default [] (head (rsplit1 46%N filename)) ++ py ".xml") url]
      else []).

(** [xr.status_code == 200 and xr.text and
     xr.text.lstrip().startswith('<?xml')] *)
Definition is_xml_response (xr : Response) : bool :=
  (status_code xr =? 200)
  && match text xr with [] => false | _ => true end
  && startswith (py "<?xml") (lstrip (text xr)).

(** The loop [for xu in candidates]: the accepted body, if any, and the
    number of requests made; [n] requests were made before. *)
Fixpoint probe (w : World) (n : nat) (candidates : list pystr)
  : option pystr * nat :=
  match candidates with
  | [] => (None, n)
  | xu :: rest =>
      match requests_get w n xu 5 with
      | Ok xr =>
          if is_xml_response xr then (Some (text xr), S n)
          else probe w (S n) rest
      | Raise _ => probe w (S n) rest
      end
  end.

(** ** The poll cycle of [src/livetiming/ris2cvrt.py] *)

Module Main.

(** From [soup = None] to the end of the extraction: the fresh session
    fields and the cars.  [root] is the parsed XML when [xml_text] is not
    [None]; [soup] is [None] exactly then.  The banner search of the HTML
    branch assigns nothing and is left out. *)
Definition extract (w : World) (root : option Element) (soup : option node)
  : result (option pystr * option pystr * option Z * list CarRow) :=
  let '(session_name, flag, remaining) :=
    match root with
    | Some r => xml_session r
    | None => (None, None, None)
    end in
  (* [soup.find_all('table')] *)
  table ← match soup with
          | Some sp => Ok (locate_table (str_lower w) sp)
          | None => Raise AttributeError
          end;
  let cars := match root with
              | Some r => xml_cars (str_lower w) r
              | None => []
              end in
  cars ← match cars, table with
         | [], Some t => html_cars (str_lower w) t
         | _, _ => Ok cars
         end;
  Ok (session_name, flag, remaining, cars).

Definition getRaceState (w : World) (now : Z) (self : Service)
  : result RaceState * Service :=
  let url := DATA_SOURCE_URL in
  let '(xml_text, n) := probe w O (xml_candidates url) in
  let root :=
    match xml_text with
    | Some x =>
        match ET_fromstring w x with
        | Ok r => Some r
        | Raise _ => None
        end
    | None => None
    end in
  let fetched :=
    match root with
    | Some r => Ok (None, self)
    | None =>
        match fetch_html w n url with
        | Ok html =>
            Ok (Some (BeautifulSoup w html), set_last_fetch_ok true self)
        | Raise e => Raise e
        end
    end in
  match fetched with
  | Raise _ =>
      let self := set_last_fetch_ok false self in
      (Ok (fetch_failed self now), self)
  | Ok (soup, self) =>
      match extract w root soup with
      | Raise e => (Raise e, self)
      | Ok (session_name, flag, remaining, cars) =>
          let self := update_cache session_name flag remaining self in
          (Ok {| cars := cars; session := session_of self now true |}, self)
      end
  end.

End Main.

(** ** The poll cycle of [src/livetiming/service/plugins/ris2cvrt.py] *)

Module Plugin.

Definition extract (w : World) (soup : node)
  : result (option pystr * option pystr * option Z * list CarRow) :=
  let session_name : option pystr := None in
  let flag : option pystr := None in
  let remaining : option Z := None in
  let table := locate_table (str_lower w) soup in
  cars ← match table with
         | Some t => html_cars (str_lower w) t
         | None => Ok []
         end;
  Ok (session_name, flag, remaining, cars).

Definition getRaceState (w : World) (now : Z) (self : Service)
  : result RaceState * Service :=
  let url := DATA_SOURCE_URL in
  match fetch_html w O url with
  | Raise _ =>
      let self := set_last_fetch_ok false self in
      (Ok (fetch_failed self now), self)
  | Ok html =>
      let self := set_last_fetch_ok true self in
      let soup := BeautifulSoup w html in
      match extract w soup with
      | Raise e => (Raise e, self)
      | Ok (session_name, flag, remaining, cars) =>
          let self := update_cache session_name flag remaining self in
          (Ok {| cars := cars; session := session_of self now true |}, self)
      end
  end.

End Plugin.

(** ** A concrete world for the examples *)

(** [str.lower] on the letters A-Z; other code points are kept. *)
Definition ascii_lower (s : pystr) : pystr :=
  map (fun c => if (65 <=? c) && (c <=? 90) then c + 32 else c)%N s.

Definition td (s : string) : node := Tag (py "td") [NavigableString (py s)].
Definition th (s : string) : node := Tag (py "th") [NavigableString (py s)].
Definition tr (cells : list node) : node := Tag (py "tr") cells.
Definition page (rows : list node) : node :=
  Tag (py "[document]") [Tag (py "table") rows].

(** A world whose XML probes fail and whose page answers [html_status] and
    parses to [doc]. *)
Definition html_world (html_status : Z) (doc : node) : World :=
  {| requests_get := fun n url timeout =>
       if (timeout =? 10) then Ok {| status_code := html_status; text := py "<html>" |}
       else Raise RequestException;
     BeautifulSoup := fun _ => doc;
     ET_fromstring := fun _ => Raise ParseError;
     str_lower := ascii_lower |}.

(** A world whose first XML probe answers 200 with an XML body that parses
    to [root]. *)
Definition xml_world (root : Element) : World :=
  {| requests_get := fun n url timeout =>
       Ok {| status_code := 200; text := py "<?xml version='1.0'?><live/>" |};
     BeautifulSoup := fun _ => Tag (py "[document]") [];
     ET_fromstring := fun _ => Ok root;
     str_lower := ascii_lower |}.

(** A world in which every request fails. *)
Definition dead_world : World :=
  {| requests_get := fun n url timeout => Raise RequestException;
     BeautifulSoup := fun _ => Tag (py "[document]") [];
     ET_fromstring := fun _ => Raise ParseError;
     str_lower := ascii_lower |}.

Definition english_page : node :=
  page [tr [th "Pos"; th "Num"; th "Team"; th "Drivers"; th "Last"; th "Best"];
        tr [td "1"; td "7"; td ""; td "Alice"; td "1:23.456"; td "1:22.9"];
        tr [td "2"; td ""; td "Ghost"; td "Nobody"; td "59.1"; td "58"];
        tr [td "3"; td "12"; td "Deux Pattes"; td "Bob"; td "-"; td "DNF"]].

(** ** Vocabulary of the properties *)

(** The three sticky fields of the state. *)
Definition cache_of (self : Service) : option pystr * option pystr * option Z :=
  (_last_session_name self, _last_flag self, _last_remaining self).

(** Every probe of a derived XML address fails: the request raises, or its
    answer is not accepted (status other than 200, or a body that does not
    start with an XML declaration). *)
Definition xml_unavailable (w : World) : Prop :=
  forall i xu, In xu (xml_candidates DATA_SOURCE_URL) ->
               match requests_get w i xu 5 with
               | Ok xr => is_xml_response xr = false
               | Raise _ => True
               end.


(** A page whose only data row carries a lap time of 400 digits of minutes. *)
Definition overflow_page : node :=
  page [tr [th "Num"; th "Last"];
        tr [td "7";
            Tag (py "td") [NavigableString (repeat 57%N 400 ++ py ":00")]]].

(** A bare XML document: a root without children. *)
Definition bare_root : Element := mkElement (py "live") None [].

(** Consecutive cycles, each with its own world and clock. *)
Fixpoint run_cycles
  (cycle : World -> Z -> Service -> result RaceState * Service)
  (inputs : list (World * Z)) (self : Service) : Service :=
  match inputs with
  | [] => self
  | (w, now) :: rest => run_cycles cycle rest (snd (cycle w now self))
  end.

Definition is_set (field : option pystr) : bool :=
  match field with
  | Some (_ :: _) => true
  | _ => false
  end.

(** The page request fails: it raises, or answers a 4xx or 5xx status. *)
Definition page_unavailable (w : World) : Prop :=
  forall n, match requests_get w n DATA_SOURCE_URL 10 with
            | Ok r => 400 <= status_code r < 600
            | Raise _ => True
            end.


Arguments find_all : simpl never.
Arguments get : simpl never.
Arguments cget : simpl never.
Arguments children_dict : simpl never.
Arguments _parse_lap_time : simpl never.
Arguments locate_table : simpl never.
Arguments html_cars : simpl never.
Arguments xml_cars : simpl never.
Arguments xml_session : simpl never.

Definition header_labels (lower : pystr -> pystr) (row : node) : list pystr :=
  map (fun c => lower (_text (Some c))) (find_all [py "th"; py "td"] row).

(** Two pages that differ in one header label only. *)
Definition drivers_page : node :=
  page [tr [th "Num"; th "Driver"; th "Drivers"];
        tr [td "7"; td "Bob"; td "Alice"]].
Definition pilotes_page : node :=
  page [tr [th "Num"; th "Driver"; th "Pilotes"];
        tr [td "7"; td "Bob"; td "Alice"]].

(** Two tables with a French number column, differing in one label only. *)
Definition drivers_table : node :=
  Tag (py "table")
    [tr [Tag (py "th") [NavigableString (py "N" ++ [176%N])]; th "Drivers"];
     tr [td "7"; td "Alice"]].
Definition pilotes_table : node :=
  Tag (py "table")
    [tr [Tag (py "th") [NavigableString (py "N" ++ [176%N])]; th "Pilotes"];
     tr [td "7"; td "Alice"]].

(** Two tables within the reach of the column mapper. *)
Definition plain_drivers_table : node :=
  Tag (py "table") [tr [th "Num"; th "Drivers"]; tr [td "7"; td "Alice"]].
Definition plain_pilotes_table : node :=
  Tag (py "table") [tr [th "Num"; th "Pilotes"]; tr [td "7"; td "Alice"]].

(** ** The lap-time grammar *)

Definition all_digits (s : pystr) : Prop :=
  Forall (fun c => isdecimal c = true) s.

(** The text of a lap time: an optional minutes part with its colon, the
    seconds, an optional separator with the fractional digits. *)
Definition lap_text (mins : option pystr) (secs : pystr)
  (frac : option (N * pystr)) : pystr :=
  match mins with Some m => m ++ [58%N] | None => [] end
  ++ secs
  ++ match frac with Some (sep, f) => sep :: f | None => [] end.

(** The grammar as the specification words it: minutes are digits, seconds
    are one or two digits, the fraction is ['.'] or [','] and one to three
    digits. *)
Definition lap_wf (mins : option pystr) (secs : pystr)
  (frac : option (N * pystr)) : Prop :=
  match mins with Some m => m <> [] /\ all_digits m | None => True end
  /\ all_digits secs /\ (1 <= length secs <= 2)%nat
  /\ match frac with
     | Some (sep, f) =>
         (sep = 46%N \/ sep = 44%N) /\ all_digits f
         /\ (1 <= length f <= 3)%nat
     | None => True
     end.


(** The number a run of decimal digits denotes. *)
Definition decimal_number (s : pystr) : Z :=
  fold_left (fun acc c => acc * 10 + default 0 (decimal_value c)) s 0.

Definition frac_digits (frac : option (N * pystr)) : option pystr :=
  match frac with Some (_, f) => Some f | None => None end.

Arguments isdecimal : simpl never.
Arguments isspace : simpl never.

(** The end of the text: nothing, or one newline. *)
Definition line_end (nl : pystr) : Prop := nl = [] \/ nl = [10%N].

(** ** Vocabulary of the further properties *)

(** White space occurs only as single blanks (code point 32), none of them
    at the start when [after_blank] is set. *)
Fixpoint single_blanks (after_blank : bool) (s : pystr) : bool :=
  match s with
  | [] => true
  | c :: r =>
      if isspace c
      then (c =? 32)%N && negb after_blank && single_blanks true r
      else single_blanks false r
  end.

(** The page request answers [r] whenever it is made. *)
Definition page_answers (w : World) (r : Response) : Prop :=
  forall n, requests_get w n DATA_SOURCE_URL 10 = Ok r.

(** One step of a scan of the integers from 0 upwards: the next integer,
    and whether all those seen have a finite nearest float. *)
Definition finite_step (st : Z * bool) : Z * bool :=
  (fst st + 1, snd st && negb (is_infinity (Z2float (fst st)))).

(** A key with no usable value: absent, or bound to the empty string. *)
Definition blank (children : gmap pystr pystr) (a : pystr) : Prop :=
  children !! a = None \/ children !! a = Some [].

(** * Properties *)

(** ** The model on small inputs *)

Example py_int_examples :
  py_int (py "1_0") = Ok 10 /\ py_int (py " 7 ") = Ok 7
  /\ py_int (py "-5") = Ok (-5) /\ py_int (py "_1") = Raise ValueError
  /\ py_int (py "1__0") = Raise ValueError
  /\ py_int [1634%N; 1635%N] = Ok 23.
Proof. repeat split; vm_compute; reflexivity. Qed.

Example lap_re_match_examples :
  lap_re_match (py "1:23.456") = Some (Some (py "1"), py "23", Some (py "456"))
  /\ lap_re_match (py "23" ++ [10%N]) = Some (None, py "23", None)
  /\ lap_re_match (py "12:34:56") = None
  /\ lap_re_match (py "123") = None
  /\ lap_re_match (py "1.2345") = None.
Proof. repeat split; vm_compute; reflexivity. Qed.

Example parse_lap_time_examples :
  _parse_lap_time (py "-") = Ok None /\ _parse_lap_time [] = Ok None
  /\ _parse_lap_time (py "N/A") = Ok None
  /\ _parse_lap_time (py "DNF") = Ok None
  /\ _parse_lap_time (py "   ") = Ok None.
Proof. repeat split; vm_compute; reflexivity. Qed.

Example text_example :
  _text (Some (Tag (py "td")
                 [NavigableString (32%N :: 32%N :: py "Foo" ++ [10%N; 9%N]);
                  Tag (py "b") [NavigableString (py "Bar  ")];
                  Comment (py "hidden")]))
  = py "Foo Bar".
Proof. vm_compute. reflexivity. Qed.

Example xml_session_example :
  xml_session
    (mkElement (py "live") None
       [mkElement (py "lineinfo") None
          [mkElement (py "seance") (Some (py " Q1 ")) [];
           mkElement (py "messageDC2") None [];
           mkElement (py "messageDC1") (Some (py "GREEN FLAG")) [];
           mkElement (py "remain") (Some (py "1:02:03")) []]])
  = (Some (py "Q1"), Some (py "GREEN FLAG"), Some 3723).
Proof. vm_compute. reflexivity. Qed.

Example xml_cars_example :
  map car_num
    (xml_cars ascii_lower
       (mkElement (py "live") None
          [mkElement (py "car") None
             [mkElement (py "Num") (Some (py "7")) [];
              mkElement (py "Last") (Some (py "59.9")) []];
           mkElement (py "car") None
             [mkElement (py "Team") (Some (py "Ghost")) []]]))
  = [py "7"].
Proof. vm_compute. reflexivity. Qed.

(** ** The poll cycle *)

Example english_page_cars :
  Main.getRaceState (html_world 200 english_page) 1000 init
  = (Ok {| cars :=
             [{| car_num := py "7"; car_state := []; car_driver := py "Alice";
                 car_last_lap := Some 83.456%float;
                 car_best_lap := Some 82.9%float |};
              {| car_num := py "12"; car_state := [];
                 car_driver := py "Deux Pattes";
                 car_last_lap := None; car_best_lap := None |}];
           session := {| name := py "2CVRT"; flag := []; remaining := None;
                         clock := 1000; source_ok := true |} |},
     set_last_fetch_ok true init).
Proof. vm_compute. reflexivity. Qed.

Lemma update_cache_nothing self : update_cache None None None self = self.
Proof. destruct self; reflexivity. Qed.

(** Without a parsed page, the table search fails on [soup = None]. *)
Lemma extract_without_soup w root :
  Main.extract w (Some root) None = Raise AttributeError.
Proof.
  unfold Main.extract. destruct (xml_session root) as [[sn fl] rem].
  reflexivity.
Qed.

(** The HTML branch finds no fresh session field. *)
Lemma extract_html_fresh w soup sn fl rem cs :
  Main.extract w None (Some soup) = Ok (sn, fl, rem, cs) ->
  sn = None /\ fl = None /\ rem = None.
Proof.
  unfold Main.extract. cbn.
  destruct (locate_table (str_lower w) soup) as [t|]; cbn.
  - destruct (html_cars (str_lower w) t); cbn; intros H; inversion H; auto.
  - intros H; inversion H; auto.
Qed.

Lemma plugin_extract_fresh w soup sn fl rem cs :
  Plugin.extract w soup = Ok (sn, fl, rem, cs) ->
  sn = None /\ fl = None /\ rem = None.
Proof.
  unfold Plugin.extract.
  destruct (locate_table (str_lower w) soup) as [t|]; cbn.
  - destruct (html_cars (str_lower w) t); cbn; intros H; inversion H; auto.
  - intros H; inversion H; auto.
Qed.

Lemma probe_failing w n cands :
  (forall i xu, In xu cands ->
                match requests_get w i xu 5 with
                | Ok xr => is_xml_response xr = false
                | Raise _ => True
                end) ->
  probe w n cands = (None, (n + length cands)%nat).
Proof.
  revert n. induction cands as [|xu rest IH]; intros n H; cbn [probe length].
  - f_equal. lia.
  - pose proof (H n xu (or_introl eq_refl)) as Hx.
    assert (Hr : probe w (S n) rest = (None, (n + S (length rest))%nat)).
    { rewrite IH; [f_equal; lia|]. intros i x Hin. apply H. right. exact Hin. }
    destruct (requests_get w n xu 5) as [xr|e]; [rewrite Hx|]; exact Hr.
Qed.

(** Every cycle of either module leaves the three cached fields alone. *)
Lemma main_cache_frame w now self :
  cache_of (snd (Main.getRaceState w now self)) = cache_of self.
Proof.
  unfold Main.getRaceState.
  destruct (probe w 0 (xml_candidates DATA_SOURCE_URL)) as [xml_text n].
  destruct xml_text as [x|]; [destruct (ET_fromstring w x) as [r|e]|].
  - rewrite extract_without_soup. reflexivity.
  - destruct (fetch_html w n DATA_SOURCE_URL) as [html|e']; [|reflexivity].
    destruct (Main.extract w None _) as [[[[sn fl] rem] cs]|e''] eqn:E;
      [|reflexivity].
    apply extract_html_fresh in E as (-> & -> & ->).
    cbn [snd]. rewrite update_cache_nothing. reflexivity.
  - destruct (fetch_html w n DATA_SOURCE_URL) as [html|e']; [|reflexivity].
    destruct (Main.extract w None _) as [[[[sn fl] rem] cs]|e''] eqn:E;
      [|reflexivity].
    apply extract_html_fresh in E as (-> & -> & ->).
    cbn [snd]. rewrite update_cache_nothing. reflexivity.
Qed.

Lemma plugin_cache_frame w now self :
  cache_of (snd (Plugin.getRaceState w now self)) = cache_of self.
Proof.
  unfold Plugin.getRaceState.
  destruct (fetch_html w 0 DATA_SOURCE_URL) as [html|e']; [|reflexivity].
  destruct (Plugin.extract w _) as [[[[sn fl] rem] cs]|e''] eqn:E;
    [|reflexivity].
  apply plugin_extract_fresh in E as (-> & -> & ->).
  cbn [snd]. rewrite update_cache_nothing. reflexivity.
Qed.



Lemma run_cycles_cache cycle inputs self :
  (forall w now s, cache_of (snd (cycle w now s)) = cache_of s) ->
  cache_of (run_cycles cycle inputs self) = cache_of self.
Proof.
  intros H. revert self.
  induction inputs as [|[w now] rest IH]; intros self; cbn; [reflexivity|].
  rewrite IH. apply H.
Qed.

(** C1 (the code departs from the claim): a cycle can raise to its caller.
    On the XML path the table search runs on [soup = None] and raises
    [AttributeError]; on the HTML path of either module a lap time whose
    minutes exceed the float range raises [OverflowError]. *)
Theorem cycle_raises_to_caller :
  Main.getRaceState (xml_world bare_root) 1000 init
  = (Raise AttributeError, init)
  /\ Main.getRaceState (html_world 200 overflow_page) 1000 init
     = (Raise OverflowError, set_last_fetch_ok true init)
  /\ Plugin.getRaceState (html_world 200 overflow_page) 1000 init
     = (Raise OverflowError, set_last_fetch_ok true init).
Proof. repeat split; vm_compute; reflexivity. Qed.

(** C3 (the code departs from the claim): whenever an XML body is accepted
    and parsed, the cycle ends in [AttributeError] and returns no race state,
    whatever the document holds; the service state is untouched. *)
Theorem xml_path_raises (w : World) (now : Z) (self : Service)
  (x : pystr) (n : nat) (root : Element) :
  probe w O (xml_candidates DATA_SOURCE_URL) = (Some x, n) ->
  ET_fromstring w x = Ok root ->
  Main.getRaceState w now self = (Raise AttributeError, self).
Proof.
  intros Hp Hx. unfold Main.getRaceState. rewrite Hp, Hx.
  rewrite extract_without_soup. reflexivity.
Qed.

Lemma xml_path_raises_witness :
  Main.getRaceState (xml_world bare_root) 1000 init
  = (Raise AttributeError, init).
Proof.
  apply (xml_path_raises (xml_world bare_root) 1000 init
           (py "<?xml version='1.0'?><live/>") 1%nat bare_root);
    vm_compute; reflexivity.
Defined.

(** C4, as stated, fails: with the XML probes failing and the page answering
    304 (not a 2xx status), the cycle reports [source_ok = true]. *)
Lemma non_2xx_still_ok :
  xml_unavailable (html_world 304 (page []))
  /\ (exists r, requests_get (html_world 304 (page [])) 2 DATA_SOURCE_URL 10
                = Ok r
                /\ ~ (200 <= status_code r < 300))
  /\ exists rs s, Main.getRaceState (html_world 304 (page [])) 1000 init
                  = (Ok rs, s)
                  /\ source_ok (session rs) = true.
Proof.
  split; [|split].
  - intros i xu _. exact I.
  - eexists. split; [reflexivity|]. cbn. lia.
  - eexists. eexists. split; [vm_compute; reflexivity|reflexivity].
Qed.

Lemma fetch_html_unavailable w n :
  page_unavailable w -> exists e, fetch_html w n DATA_SOURCE_URL = Raise e.
Proof.
  intros H. specialize (H n). unfold fetch_html.
  destruct (requests_get w n DATA_SOURCE_URL 10) as [r|e]; cbn.
  - unfold raise_for_status.
    replace (400 <=? status_code r) with true by (symmetry; apply Z.leb_le; lia).
    replace (status_code r <? 600) with true by (symmetry; apply Z.ltb_lt; lia).
    cbn. eauto.
  - eauto.
Qed.

(** C4 (amended): when every XML probe fails and the page request raises or
    answers a 4xx/5xx status, the cycle returns no cars, [source_ok = false],
    the current clock, and name, flag and remaining from the cache (name
    ['2CVRT'] and flag [''] when the cache has none); in both modules. *)
Theorem total_fetch_failure (w : World) (now : Z) (self : Service) :
  xml_unavailable w ->
  page_unavailable w ->
  let failed :=
    (Ok {| cars := [];
           session := {| name := opt_or (_last_session_name self) (py "2CVRT");
                         flag := opt_or (_last_flag self) [];
                         remaining := _last_remaining self;
                         clock := now;
                         source_ok := false |} |},
     set_last_fetch_ok false self) in
  Main.getRaceState w now self = failed
  /\ Plugin.getRaceState w now self = failed.
Proof.
  intros Hx Hp failed. split.
  - unfold Main.getRaceState. rewrite (probe_failing _ _ _ Hx).
    destruct (fetch_html_unavailable w (0 + length (xml_candidates DATA_SOURCE_URL)) Hp)
      as [e ->].
    reflexivity.
  - unfold Plugin.getRaceState.
    destruct (fetch_html_unavailable w 0 Hp) as [e ->]. reflexivity.
Qed.

Lemma total_fetch_failure_witness :
  Main.getRaceState dead_world 1000 init
  = (Ok {| cars := [];
           session := {| name := py "2CVRT"; flag := []; remaining := None;
                         clock := 1000; source_ok := false |} |},
     init).
Proof.
  apply (total_fetch_failure dead_world 1000 init).
  - intros i xu _. exact I.
  - intros n. exact I.
Defined.

(** C5: a cycle that ends in the fetch-failure outcome ([source_ok] false in
    its result) leaves [_last_session_name], [_last_flag] and
    [_last_remaining] as they were; in both modules. *)
Theorem failed_cycle_keeps_cache (w : World) (now : Z) (self self' : Service)
  (rs : RaceState) :
  Main.getRaceState w now self = (Ok rs, self')
  \/ Plugin.getRaceState w now self = (Ok rs, self') ->
  source_ok (session rs) = false ->
  _last_session_name self' = _last_session_name self
  /\ _last_flag self' = _last_flag self
  /\ _last_remaining self' = _last_remaining self.
Proof.
  intros [H|H] _.
  - pose proof (main_cache_frame w now self) as F. rewrite H in F.
    inversion F; auto.
  - pose proof (plugin_cache_frame w now self) as F. rewrite H in F.
    inversion F; auto.
Qed.

Lemma failed_cycle_keeps_cache_witness :
  _last_session_name init = _last_session_name init
  /\ _last_flag init = _last_flag init
  /\ _last_remaining init = _last_remaining init.
Proof.
  apply (failed_cycle_keeps_cache dead_world 1000 init init
           (fetch_failed init 1000)).
  - left. vm_compute. reflexivity.
  - reflexivity.
Defined.


(** C9: the cache update assigns a field only a fresh value that is a
    non-empty string (name, flag) or not [None] (remaining), and otherwise
    keeps it; so over any run of cycles, of either module, a field that is
    set stays set. *)
Theorem cache_never_downgrades :
  (forall sn fl rem self,
      (_last_session_name (update_cache sn fl rem self)
       = if is_set sn then sn else _last_session_name self)
      /\ (_last_flag (update_cache sn fl rem self)
          = if is_set fl then fl else _last_flag self)
      /\ (_last_remaining (update_cache sn fl rem self)
          = match rem with Some z => Some z | None => _last_remaining self end))
  /\ (forall sn fl rem self,
         (is_set (_last_session_name self) = true ->
          is_set (_last_session_name (update_cache sn fl rem self)) = true)
         /\ (is_set (_last_flag self) = true ->
             is_set (_last_flag (update_cache sn fl rem self)) = true)
         /\ (is_Some (_last_remaining self) ->
             is_Some (_last_remaining (update_cache sn fl rem self))))
  /\ (forall inputs self final,
         final = run_cycles Main.getRaceState inputs self
         \/ final = run_cycles Plugin.getRaceState inputs self ->
         (is_set (_last_session_name self) = true ->
          is_set (_last_session_name final) = true)
         /\ (is_set (_last_flag self) = true ->
             is_set (_last_flag final) = true)
         /\ (is_Some (_last_remaining self) ->
             is_Some (_last_remaining final))).
Proof.
  split; [|split].
  - intros sn fl rem self. cbn.
    destruct sn as [[|c r]|], fl as [[|c' r']|], rem; auto.
  - intros sn fl rem self. cbn.
    destruct sn as [[|c r]|], fl as [[|c' r']|], rem; cbn; auto.
  - intros inputs self final H.
    assert (F : cache_of final = cache_of self).
    { destruct H as [-> | ->]; apply run_cycles_cache.
      - apply main_cache_frame.
      - apply plugin_cache_frame. }
    unfold cache_of in F. inversion F as [[H1 H2 H3]]. auto.
Qed.

Lemma cache_never_downgrades_witness :
  is_set (_last_flag
            (update_cache (Some []) (Some []) None
               {| _last_fetch_ok := true; _last_session_name := None;
                  _last_flag := Some (py "GREEN FLAG");
                  _last_remaining := Some 3600 |})) = true.
Proof.
  apply (proj1 (proj2 (proj1 (proj2 cache_never_downgrades)
                         (Some []) (Some []) None
                         {| _last_fetch_ok := true; _last_session_name := None;
                            _last_flag := Some (py "GREEN FLAG");
                            _last_remaining := Some 3600 |}))).
  reflexivity.
Defined.

(** C10: for the configured address both derived XML candidates are
    [https://results.ris-timing.be/2cvrt/live/live2025.xml]; the list holds
    one distinct address. *)
Theorem xml_candidates_coincide :
  xml_candidates DATA_SOURCE_URL
  = [py "https://results.ris-timing.be/2cvrt/live/live2025.xml";
     py "https://results.ris-timing.be/2cvrt/live/live2025.xml"]
  /\ remove_dups (xml_candidates DATA_SOURCE_URL)
     = [py "https://results.ris-timing.be/2cvrt/live/live2025.xml"].
Proof. split; vm_compute; reflexivity. Qed.

(** ** The row extractors *)







(** ** The column mapper under a change of one header label *)

Lemma str_in_spec x xs : str_in x xs = true <-> x ∈ xs.
Proof. unfold str_in. apply bool_decide_eq_true. Qed.

Lemma index_of_insert_other (a old new : pystr) (L : list pystr) (j : nat) :
  L !! j = Some old -> a <> old -> a <> new ->
  index_of a (<[j:=new]> L) = index_of a L.
Proof.
  revert j. induction L as [|y ys IH]; intros j Hj Ho Hn; [reflexivity|].
  destruct j as [|j]; cbn in *.
  - inversion Hj; subst y.
    rewrite !bool_decide_eq_false_2 by congruence. reflexivity.
  - destruct (bool_decide (y = a)); [reflexivity|].
    f_equal. apply IH; auto.
Qed.

Lemma str_in_insert_other (a old new : pystr) (L : list pystr) (j : nat) :
  L !! j = Some old -> a <> old -> a <> new ->
  str_in a (<[j:=new]> L) = str_in a L.
Proof.
  intros Hj Ho Hn. unfold str_in. apply bool_decide_ext.
  rewrite !list_elem_of_lookup. split; intros [i Hi].
  - destruct (decide (i = j)) as [->|Hne].
    + rewrite list_lookup_insert_eq in Hi
        by (eapply lookup_lt_Some; exact Hj).
      congruence.
    + rewrite list_lookup_insert_ne in Hi by auto. eauto.
  - destruct (decide (i = j)) as [->|Hne].
    + congruence.
    + exists i. rewrite list_lookup_insert_ne by auto. exact Hi.
Qed.

Lemma idx_insert_other (alts : list pystr) (old new : pystr)
  (L : list pystr) (j : nat) :
  L !! j = Some old -> old ∉ alts -> new ∉ alts ->
  idx (<[j:=new]> L) alts = idx L alts.
Proof.
  intros Hj Ho Hn. induction alts as [|a rest IH]; [reflexivity|].
  cbn. apply not_elem_of_cons in Ho as [Ho1 Ho2].
  apply not_elem_of_cons in Hn as [Hn1 Hn2].
  rewrite (str_in_insert_other a old new L j), (index_of_insert_other a old new L j)
    by auto.
  rewrite IH by auto. reflexivity.
Qed.

Lemma index_of_at (a : pystr) (L : list pystr) (j : nat) :
  L !! j = Some a -> (forall i, (i < j)%nat -> L !! i <> Some a) ->
  index_of a L = Some j.
Proof.
  revert j. induction L as [|y ys IH]; intros j Hj Hlt; [discriminate|].
  destruct j as [|j]; cbn in *.
  - inversion Hj. subst. rewrite bool_decide_eq_true_2 by reflexivity.
    reflexivity.
  - rewrite bool_decide_eq_false_2.
    + rewrite (IH j); auto. intros i Hi. apply (Hlt (S i)). lia.
    + intros ->. apply (Hlt O); [lia|reflexivity].
Qed.

Lemma not_in_lookup (a : pystr) (L : list pystr) (i : nat) :
  a ∉ L -> L !! i <> Some a.
Proof. intros Hn H. apply Hn. eapply list_elem_of_lookup_2. exact H. Qed.

Lemma find_index_app {A} (f : A -> bool) (pre : list A) (h : A)
  (post : list A) :
  Forall (fun x => f x = false) pre -> f h = true ->
  find_index f (pre ++ h :: post) = Some (length pre).
Proof.
  intros Hp Hh. induction Hp as [|x pre Hx Hp IH]; cbn.
  - rewrite Hh. reflexivity.
  - rewrite Hx, IH. reflexivity.
Qed.

(** Rows up to and including the header row produce nothing. *)
Lemma data_rows_skip_header col_idx (pre : list node) (h : node)
  (post : list node) (i : nat) cs :
  data_rows col_idx (i + length pre) false i (pre ++ h :: post) cs
  = data_rows col_idx (i + length pre) true (S (i + length pre)) post cs.
Proof.
  revert i. induction pre as [|p pre IH]; intros i; cbn [app length].
  - cbn [data_rows]. replace (i + 0)%nat with i by lia.
    rewrite Nat.eqb_refl. reflexivity.
  - cbn [data_rows].
    destruct (Nat.eqb_spec i (i + S (length pre))) as [E|_]; [lia|].
    cbn [negb]. replace (i + S (length pre))%nat with (S i + length pre)%nat by lia.
    apply IH.
Qed.

Lemma html_cars_at lower table (pre : list node) (h : node)
  (post : list node) :
  find_all [py "tr"] table = pre ++ h :: post ->
  Forall (fun r => is_header_row lower r = false) pre ->
  is_header_row lower h = true ->
  html_cars lower table
  = data_rows (build_col_idx (header_labels lower h)) (length pre) true
      (S (length pre)) post [].
Proof.
  intros Ht Hp Hh. unfold html_cars. rewrite Ht.
  rewrite (find_index_app _ _ _ _ Hp Hh).
  rewrite list_lookup_middle by reflexivity.
  apply (data_rows_skip_header _ pre h post O).
Qed.

(** C8, as stated, fails.  With header [Num | Driver | Drivers] the driver is
    read from the third column; relabelling that column [Pilotes] moves the
    lookup to the second one, so the same data row yields another driver.
    And with header [N° | Drivers] against [N° | Pilotes], the second table
    has no recognised header row and yields no car at all. *)
Lemma pilotes_differs :
  (exists rs1 rs2 s1 s2,
      Main.getRaceState (html_world 200 drivers_page) 1000 init = (Ok rs1, s1)
      /\ Main.getRaceState (html_world 200 pilotes_page) 1000 init
         = (Ok rs2, s2)
      /\ map car_driver (cars rs1) = [py "Alice"]
      /\ map car_driver (cars rs2) = [py "Bob"])
  /\ (exists cs, html_cars ascii_lower drivers_table = Ok cs
                 /\ map car_driver cs = [py "Alice"])
  /\ html_cars ascii_lower pilotes_table = Ok [].
Proof.
  split; [|split].
  - eexists. eexists. eexists. eexists.
    split; [vm_compute; reflexivity|].
    split; [vm_compute; reflexivity|]. split; reflexivity.
  - eexists. split; [vm_compute; reflexivity|reflexivity].
  - vm_compute. reflexivity.
Qed.

(** C8 (amended): take two tables whose rows are the same except for the
    header row, whose labels differ in one cell only, [drivers] in one and
    [pilotes] in the other.  If the header row is recognised in both, and no
    other cell of it is labelled [drivers], [driver], [pilote] or [pilotes],
    then both tables yield the same cars, hence the same driver fields. *)
Theorem pilotes_like_drivers (lower : pystr -> pystr) (t_en t_fr : node)
  (pre post : list node) (h_en h_fr : node) (j : nat) :
  find_all [py "tr"] t_en = pre ++ h_en :: post ->
  find_all [py "tr"] t_fr = pre ++ h_fr :: post ->
  Forall (fun r => is_header_row lower r = false) pre ->
  is_header_row lower h_en = true ->
  is_header_row lower h_fr = true ->
  header_labels lower h_en !! j = Some (py "drivers") ->
  header_labels lower h_fr = <[j := py "pilotes"]> (header_labels lower h_en) ->
  py "drivers" ∉ header_labels lower h_fr ->
  py "driver" ∉ header_labels lower h_en ->
  py "pilote" ∉ header_labels lower h_en ->
  py "pilotes" ∉ header_labels lower h_en ->
  html_cars lower t_fr = html_cars lower t_en.
Proof.
  intros Ten Tfr Hpre Hen Hfr Hj HL Hd1 Hd2 Hd3 Hd4.
  rewrite (html_cars_at lower t_en pre h_en post Ten Hpre Hen).
  rewrite (html_cars_at lower t_fr pre h_fr post Tfr Hpre Hfr).
  f_equal. set (L := header_labels lower h_en) in *. rewrite HL.
  assert (Hlen : (j < length L)%nat) by (eapply lookup_lt_Some; exact Hj).
  assert (Hother : forall alts, py "drivers" ∉ alts -> py "pilotes" ∉ alts ->
                     idx (<[j:=py "pilotes"]> L) alts = idx L alts).
  { intros alts H1 H2. apply (idx_insert_other alts (py "drivers")); auto. }
  assert (Hdrv : idx (<[j:=py "pilotes"]> L) drivers_alts = idx L drivers_alts).
  { rewrite HL in Hd1.
    assert (E1 : idx L drivers_alts = Some j).
    { unfold drivers_alts. cbn [idx].
      replace (str_in (py "drivers") L) with true.
      2:{ symmetry. apply str_in_spec. eapply list_elem_of_lookup_2. exact Hj. }
      apply index_of_at; [exact Hj|].
      intros i Hi Hc. apply Hd1. apply (list_elem_of_lookup_2 _ i).
      rewrite list_lookup_insert_ne by lia. exact Hc. }
    rewrite E1. unfold drivers_alts. cbn [idx].
    replace (str_in (py "drivers") (<[j:=py "pilotes"]> L)) with false.
    2:{ symmetry. apply bool_decide_eq_false. exact Hd1. }
    rewrite (str_in_insert_other (py "driver") (py "drivers")) by (auto; discriminate).
    replace (str_in (py "driver") L) with false.
    2:{ symmetry. apply bool_decide_eq_false. exact Hd2. }
    rewrite (str_in_insert_other (py "pilote") (py "drivers")) by (auto; discriminate).
    replace (str_in (py "pilote") L) with false.
    2:{ symmetry. apply bool_decide_eq_false. exact Hd3. }
    replace (str_in (py "pilotes") (<[j:=py "pilotes"]> L)) with true.
    2:{ symmetry. apply str_in_spec. apply (list_elem_of_lookup_2 _ j).
        apply list_lookup_insert_eq. exact Hlen. }
    apply index_of_at.
    - apply list_lookup_insert_eq. exact Hlen.
    - intros i Hi. rewrite list_lookup_insert_ne by lia.
      apply not_in_lookup. exact Hd4. }
  unfold build_col_idx. rewrite Hdrv.
  rewrite !Hother; try reflexivity;
    apply (proj1 (bool_decide_eq_false _)); vm_compute; reflexivity.
Qed.

Lemma pilotes_like_drivers_witness :
  html_cars ascii_lower plain_pilotes_table
  = html_cars ascii_lower plain_drivers_table.
Proof.
  apply (pilotes_like_drivers ascii_lower plain_drivers_table
           plain_pilotes_table [] [tr [td "7"; td "Alice"]]
           (tr [th "Num"; th "Drivers"]) (tr [th "Num"; th "Pilotes"]) 1%nat);
    try (vm_compute; reflexivity);
    try (apply (proj1 (bool_decide_eq_false _)); vm_compute; reflexivity).
  constructor.
Defined.

(** ** The lap-time normalizer *)

Lemma lstrip_head s c r : lstrip s = c :: r -> isspace c = false.
Proof.
  induction s as [|a s IH]; cbn; [discriminate|].
  destruct (isspace a) eqn:E; [exact IH|].
  intros H. inversion H. subst. exact E.
Qed.

Lemma lstrip_id c r : isspace c = false -> lstrip (c :: r) = c :: r.
Proof. intros H. cbn. rewrite H. reflexivity. Qed.

Lemma strip_last s x c : strip s = x ++ [c] -> isspace c = false.
Proof.
  unfold strip, rstrip. intros H.
  apply (f_equal (@rev N)) in H. rewrite rev_involutive, rev_app_distr in H.
  cbn in H. eapply lstrip_head. exact H.
Qed.

Lemma isspace_cases c :
  isspace c = true ->
  In c [9; 10; 11; 12; 13; 28; 29; 30; 31; 32; 133; 160; 5760; 8192; 8193;
        8194; 8195; 8196; 8197; 8198; 8199; 8200; 8201; 8202; 8232; 8233;
        8239; 8287; 12288]%N.
Proof.
  unfold isspace.
  rewrite !orb_true_iff, !andb_true_iff, !N.leb_le, !N.eqb_eq.
  cbn [In]. lia.
Qed.

Lemma digit_not_space c : isdecimal c = true -> isspace c = false.
Proof.
  intros Hd. destruct (isspace c) eqn:E; [|reflexivity].
  apply isspace_cases in E. cbn [In] in E.
  repeat (destruct E as [<-|E]; [vm_compute in Hd; discriminate|]).
  contradiction.
Qed.

Lemma strip_digits d : all_digits d -> strip d = d.
Proof.
  intros Hd. destruct d as [|c r]; [reflexivity|].
  unfold strip, rstrip.
  rewrite lstrip_id by (apply digit_not_space; inversion Hd; assumption).
  destruct (rev (c :: r)) as [|a u] eqn:E.
  - apply (f_equal (@length N)) in E. rewrite length_rev in E. discriminate.
  - rewrite lstrip_id.
    + rewrite <- E. apply rev_involutive.
    + apply digit_not_space.
      assert (Hin : In a (c :: r)).
      { apply in_rev. rewrite E. left. reflexivity. }
      unfold all_digits in Hd. rewrite List.Forall_forall in Hd. auto.
Qed.

Lemma span_digits_app d r :
  all_digits d ->
  match r with [] => True | c :: _ => isdecimal c = false end ->
  span_digits (d ++ r) = (d, r).
Proof.
  intros Hd Hr. induction Hd as [|c d Hc Hd IH]; cbn.
  - destruct r as [|c r]; [reflexivity|]. cbn. rewrite Hr. reflexivity.
  - rewrite Hc, IH. reflexivity.
Qed.


Lemma between_spec lo hi s :
  between lo hi s = true <-> (lo <= length s <= hi)%nat.
Proof.
  unfold between. rewrite andb_true_iff, !Nat.leb_le. reflexivity.
Qed.

Lemma at_dollar_spec r : at_dollar r = true <-> line_end r.
Proof.
  unfold at_dollar, line_end. destruct r as [|c [|c' r]].
  - split; auto.
  - rewrite N.eqb_eq. split.
    + intros ->. auto.
    + intros [H|H]; [discriminate|]. inversion H. reflexivity.
  - split; [discriminate|]. intros [H|H]; discriminate.
Qed.

Lemma line_end_head nl :
  line_end nl -> match nl with [] => True | c :: _ => isdecimal c = false end.
Proof. intros [-> | ->]; [exact I|]. vm_compute. reflexivity. Qed.

Lemma lap_re_tail_complete frac nl :
  match frac with
  | Some (sep, f) =>
      (sep = 46%N \/ sep = 44%N) /\ all_digits f /\ (1 <= length f <= 3)%nat
  | None => True
  end ->
  line_end nl ->
  lap_re_tail (match frac with Some (sep, f) => sep :: f | None => [] end
               ++ nl) = Some (frac_digits frac).
Proof.
  intros Hf Hnl. unfold lap_re_tail.
  destruct frac as [[sep f]|]; cbn [app frac_digits].
  - destruct Hf as (Hs & Hd & Hl).
    assert (E : at_dollar (sep :: f ++ nl) = false).
    { unfold at_dollar. destruct (f ++ nl); [|reflexivity].
      destruct Hs as [-> | ->]; reflexivity. }
    rewrite E.
    replace ((sep =? 46)%N || (sep =? 44)%N) with true
      by (destruct Hs as [-> | ->]; reflexivity).
    rewrite (span_digits_app f nl Hd (line_end_head nl Hnl)).
    rewrite (proj2 (between_spec 1 3 f) Hl).
    rewrite (proj2 (at_dollar_spec nl) Hnl). reflexivity.
  - rewrite (proj2 (at_dollar_spec nl) Hnl). reflexivity.
Qed.


(** A separator or a line end does not start with a digit. *)
Lemma tail_head frac nl :
  match frac with
  | Some (sep, f) =>
      (sep = 46%N \/ sep = 44%N) /\ all_digits f /\ (1 <= length f <= 3)%nat
  | None => True
  end ->
  line_end nl ->
  match match frac with Some (sep, f) => sep :: f | None => [] end ++ nl with
  | [] => True
  | c :: _ => isdecimal c = false /\ c <> 58%N
  end.
Proof.
  intros Hf Hnl. destruct frac as [[sep f]|]; cbn.
  - destruct Hf as ([-> | ->] & _); split; (reflexivity || discriminate).
  - destruct Hnl as [-> | ->]; [exact I|]. split; [reflexivity|discriminate].
Qed.

(** The regular expression accepts exactly the texts of the grammar, up to
    a final newline, and its groups are the parts of the text. *)
Lemma lap_re_match_complete mins secs frac nl :
  lap_wf mins secs frac -> line_end nl ->
  lap_re_match (lap_text mins secs frac ++ nl)
  = Some (mins, secs, frac_digits frac).
Proof.
  intros (Hm & Hs & Hl & Hf) Hnl.
  pose proof (tail_head frac nl Hf Hnl) as Hh.
  pose proof (lap_re_tail_complete frac nl Hf Hnl) as Ht.
  set (tl := match frac with Some (sep, f) => sep :: f | None => [] end ++ nl)
    in *.
  assert (Hh' : match tl with [] => True | c :: _ => isdecimal c = false end).
  { destruct tl; [exact I|]. apply Hh. }
  unfold lap_re_match, lap_text. destruct mins as [m|].
  - destruct Hm as [Hne Hm].
    replace (((m ++ [58%N]) ++ secs
              ++ match frac with Some (sep, f) => sep :: f | None => [] end)
             ++ nl)
      with (m ++ 58%N :: (secs ++ tl)).
    2:{ unfold tl. rewrite <- !app_assoc. reflexivity. }
    rewrite (span_digits_app m _ Hm) by reflexivity.
    destruct m as [|c0 m]; [contradiction|].
    cbn [N.eqb Pos.eqb].
    change ((58 =? 58)%N) with true. cbn iota.
    rewrite (span_digits_app secs tl Hs Hh').
    rewrite (proj2 (between_spec 1 2 secs) Hl). rewrite Ht. reflexivity.
  - replace (([] ++ secs
              ++ match frac with Some (sep, f) => sep :: f | None => [] end)
             ++ nl)
      with (secs ++ tl).
    2:{ unfold tl. cbn. rewrite <- !app_assoc. reflexivity. }
    rewrite (span_digits_app secs tl Hs Hh').
    rewrite (proj2 (between_spec 1 2 secs) Hl). rewrite Ht.
    destruct secs as [|c0 secs]; [reflexivity|].
    destruct tl as [|c tl']; [reflexivity|].
    destruct Hh as [_ Hc].
    replace ((c =? 58)%N) with false
      by (symmetry; apply N.eqb_neq; exact Hc).
    reflexivity.
Qed.


Lemma decimal_value_range c v : decimal_value c = Some v -> 0 <= v <= 9.
Proof.
  unfold decimal_value.
  destruct (List.find _ Nd_zeros) as [b|] eqn:E; [|discriminate].
  apply List.find_some in E as [_ E].
  apply andb_true_iff in E as [E1 E2].
  apply N.leb_le in E1. apply N.ltb_lt in E2.
  intros H. inversion H. lia.
Qed.

Lemma isdecimal_value c :
  isdecimal c = true -> exists v, decimal_value c = Some v /\ 0 <= v <= 9.
Proof.
  unfold isdecimal. destruct (decimal_value c) as [v|] eqn:E; [|discriminate].
  intros _. exists v. split; [reflexivity|].
  eapply decimal_value_range. exact E.
Qed.

Lemma digits_value_run d acc prev :
  all_digits d -> d <> [] \/ prev = true ->
  digits_value acc prev d
  = Some (fold_left (fun a c => a * 10 + default 0 (decimal_value c)) d acc).
Proof.
  intros Hd. revert acc prev.
  induction Hd as [|c d Hc Hd IH]; intros acc prev Hne.
  - destruct Hne as [Hne | ->]; [contradiction|reflexivity].
  - cbn. destruct (isdecimal_value c Hc) as (v & -> & _). cbn.
    apply IH. right. reflexivity.
Qed.

Lemma py_int_digits d :
  all_digits d -> d <> [] -> py_int d = Ok (decimal_number d).
Proof.
  intros Hd Hne. unfold py_int. rewrite (strip_digits d Hd).
  destruct d as [|c r]; [contradiction|].
  assert (Hc : isdecimal c = true) by (inversion Hd; assumption).
  destruct ((c =? 43)%N) eqn:E1.
  { apply N.eqb_eq in E1. subst. vm_compute in Hc. discriminate. }
  destruct ((c =? 45)%N) eqn:E2.
  { apply N.eqb_eq in E2. subst. vm_compute in Hc. discriminate. }
  rewrite (digits_value_run (c :: r) 0 false Hd) by (left; discriminate).
  reflexivity.
Qed.

Lemma fold_digits_bound d acc :
  all_digits d -> 0 <= acc ->
  0 <= fold_left (fun a c => a * 10 + default 0 (decimal_value c)) d acc
    < (acc + 1) * 10 ^ Z.of_nat (length d).
Proof.
  intros Hd. revert acc. induction Hd as [|c d Hc Hd IH]; intros acc Ha.
  - cbn [fold_left length]. change (Z.of_nat 0) with 0.
    rewrite Z.pow_0_r. lia.
  - cbn [fold_left length]. destruct (isdecimal_value c Hc) as (v & -> & Hv).
    change (default 0 (Some v)) with v.
    specialize (IH (acc * 10 + v) ltac:(lia)).
    rewrite Nat2Z.inj_succ, Z.pow_succ_r by lia.
    split; [lia|]. eapply Z.lt_le_trans; [apply IH|].
    assert (0 < 10 ^ Z.of_nat (length d)) by (apply Z.pow_pos_nonneg; lia).
    nia.
Qed.

Lemma small_floats_finite z :
  0 <= z < 1000 -> float_of_int z = Ok (Z2float z).
Proof.
  intros Hz.
  assert (H : forallb (fun n => negb (is_infinity (Z2float (Z.of_nat n))))
                (seq 0 1000) = true) by (vm_compute; reflexivity).
  rewrite forallb_forall in H.
  specialize (H (Z.to_nat z)). rewrite Z2Nat.id in H by lia.
  unfold float_of_int.
  destruct (is_infinity (Z2float z)); [|reflexivity].
  discriminate H. apply in_seq. lia.
Qed.

Lemma padded_fraction g :
  match g with
  | Some f => all_digits f /\ (1 <= length f <= 3)%nat
  | None => True
  end ->
  all_digits (ljust 3 48%N (default (py "0") g))
  /\ length (ljust 3 48%N (default (py "0") g)) = 3%nat.
Proof.
  intros Hg. unfold ljust. split.
  - apply Forall_app. split.
    + destruct g as [f|]; [apply Hg|]. repeat constructor.
    + apply Forall_forall. intros x Hx.
      apply list_elem_of_In, repeat_spec in Hx. subst. reflexivity.
  - rewrite length_app, repeat_length.
    destruct g as [f|]; [|reflexivity].
    change (default (py "0") (Some f)) with f. lia.
Qed.

(** A text of the grammar starts with a digit. *)
Lemma lap_text_head mins secs frac :
  lap_wf mins secs frac ->
  exists c r, lap_text mins secs frac = c :: r /\ isdecimal c = true.
Proof.
  intros (Hm & Hs & Hl & _). unfold lap_text. destruct mins as [m|].
  - destruct Hm as [Hne Hm]. destruct Hm as [|c m Hc Hm]; [contradiction|].
    cbn. eauto.
  - destruct Hs as [|c s Hc Hs]; [cbn in Hl; lia|]. cbn. eauto.
Qed.

Lemma digit_head_not_sentinel c r :
  isdecimal c = true -> str_in (c :: r) sentinels = false.
Proof.
  intros Hc. apply bool_decide_eq_false. unfold sentinels.
  rewrite !elem_of_cons, elem_of_nil.
  intros [H|[H|[H|[H|[]]]]]; inversion H; subst;
    vm_compute in Hc; discriminate.
Qed.

Lemma strip_nil : strip [] = [].
Proof. reflexivity. Qed.

(** What the function returns on a text of the grammar. *)
Lemma parse_lap_time_match txt mins secs frac :
  lap_wf mins secs frac ->
  strip txt = lap_text mins secs frac ->
  _parse_lap_time txt
  = (whole ← float_of_int
               (match mins with Some m => decimal_number m | None => 0 end * 60
                + decimal_number secs);
     Ok (Some (whole
               + Z2float (decimal_number
                            (ljust 3 48%N
                               (default (py "0") (frac_digits frac))))
                 / 1000)%float)).
Proof.
  intros Hwf Ht.
  destruct (lap_text_head _ _ _ Hwf) as (c & r & Hcr & Hc).
  unfold _parse_lap_time.
  destruct (bool_decide (txt = [])) eqn:E0.
  { apply bool_decide_eq_true in E0. subst txt. rewrite strip_nil in Ht.
    congruence. }
  rewrite Ht.
  pose proof (lap_re_match_complete mins secs frac [] Hwf (or_introl eq_refl))
    as Hm.
  rewrite app_nil_r in Hm. rewrite Hm. rewrite Hcr.
  rewrite (digit_head_not_sentinel c r Hc).
  rewrite bool_decide_eq_false_2 by discriminate. cbn [orb].
  destruct Hwf as (Hmin & Hs & Hl & Hf).
  assert (Hsec : py_int secs = Ok (decimal_number secs)).
  { apply py_int_digits; [exact Hs|]. intros ->. cbn in Hl. lia. }
  assert (Hmins : match mins with Some s => py_int s | None => Ok 0 end
                  = Ok match mins with
                       | Some m => decimal_number m
                       | None => 0
                       end).
  { destruct mins as [m|]; [|reflexivity].
    destruct Hmin. apply py_int_digits; assumption. }
  assert (Hg : match frac_digits frac with
               | Some f => all_digits f /\ (1 <= length f <= 3)%nat
               | None => True
               end).
  { destruct frac as [[sep f]|]; [|exact I]. cbn. tauto. }
  destruct (padded_fraction _ Hg) as [Hpd Hpl].
  assert (Hmil : py_int (ljust 3 48%N (default (py "0") (frac_digits frac)))
                 = Ok (decimal_number
                         (ljust 3 48%N (default (py "0") (frac_digits frac))))).
  { apply py_int_digits; [exact Hpd|]. intros E. rewrite E in Hpl.
    discriminate. }
  rewrite Hmins, Hsec, Hmil. cbn [mbind result_bind].
  rewrite (small_floats_finite
             (decimal_number
                (ljust 3 48%N (default (py "0") (frac_digits frac))))).
  2:{ pose proof (fold_digits_bound _ 0 Hpd ltac:(lia)) as B.
      rewrite Hpl in B. unfold decimal_number. cbn in B. lia. }
  reflexivity.
Qed.







(** * Further properties *)

(** ** Text normalizer *)

Lemma single_blanks_collapse b s :
  single_blanks b (collapse_spaces b s) = true.
Proof.
  revert b. induction s as [|c r IH]; intros b; [reflexivity|].
  cbn [collapse_spaces]. destruct (isspace c) eqn:E.
  - destruct b; [apply IH|].
    cbn [single_blanks]. change (isspace 32) with true. cbn iota.
    rewrite IH. reflexivity.
  - cbn [single_blanks]. rewrite E. apply IH.
Qed.

Lemma single_blanks_lstrip b s :
  single_blanks b s = true -> single_blanks true (lstrip s) = true.
Proof.
  revert b. induction s as [|c r IH]; intros b; [reflexivity|].
  cbn [single_blanks lstrip]. destruct (isspace c) eqn:E.
  - intros H. apply andb_true_iff in H as [_ H]. apply (IH true H).
  - intros H. cbn [single_blanks]. rewrite E. exact H.
Qed.

Lemma single_blanks_prefix b x y :
  single_blanks b (x ++ y) = true -> single_blanks b x = true.
Proof.
  revert b. induction x as [|c r IH]; intros b; [reflexivity|].
  cbn [app single_blanks]. destruct (isspace c).
  - intros H. apply andb_true_iff in H as [H1 H2].
    rewrite H1. apply (IH true H2).
  - apply IH.
Qed.

Lemma lstrip_suffix s : exists z, s = z ++ lstrip s.
Proof.
  induction s as [|c r [z IH]]; [exists []; reflexivity|].
  cbn [lstrip]. destruct (isspace c).
  - exists (c :: z). cbn. f_equal. exact IH.
  - exists []. reflexivity.
Qed.

Lemma rstrip_prefix s : exists z, s = rstrip s ++ z.
Proof.
  unfold rstrip. destruct (lstrip_suffix (rev s)) as [z Hz].
  exists (rev z). rewrite <- rev_app_distr, <- Hz, rev_involutive.
  reflexivity.
Qed.

Lemma single_blanks_strip b s :
  single_blanks b s = true -> single_blanks true (strip s) = true.
Proof.
  intros H. unfold strip.
  destruct (rstrip_prefix (lstrip s)) as [z Hz].
  apply (single_blanks_prefix true _ z). rewrite <- Hz.
  apply (single_blanks_lstrip b). exact H.
Qed.

(** X1: the text of an element is normalised: its only white space is
    single blanks between words, and it neither starts nor ends with one. *)
Theorem text_is_normalised (el : option node) :
  single_blanks true (_text el) = true
  /\ (forall x c, _text el = x ++ [c] -> isspace c = false).
Proof.
  unfold _text. split.
  - apply (single_blanks_strip false). apply single_blanks_collapse.
  - intros x c H. eapply strip_last. exact H.
Qed.

(** ** Lap-time normalizer *)

Lemma strip_head s c r : strip s = c :: r -> isspace c = false.
Proof.
  unfold strip. intros H.
  destruct (rstrip_prefix (lstrip s)) as [z Hz]. rewrite H in Hz.
  cbn in Hz. eapply lstrip_head. exact Hz.
Qed.

Lemma strip_fixed s :
  (forall c r, s = c :: r -> isspace c = false) ->
  (forall x c, s = x ++ [c] -> isspace c = false) ->
  strip s = s.
Proof.
  intros Hh Hl. destruct s as [|c r]; [reflexivity|].
  unfold strip. rewrite lstrip_id by (eapply Hh; reflexivity).
  unfold rstrip. destruct (rev (c :: r)) as [|a u] eqn:E.
  - apply (f_equal (@length N)) in E. rewrite length_rev in E. discriminate.
  - rewrite lstrip_id.
    + rewrite <- E. apply rev_involutive.
    + apply (Hl (rev u)). apply (f_equal (@rev N)) in E.
      rewrite rev_involutive in E. exact E.
Qed.

Lemma strip_idempotent s : strip (strip s) = strip s.
Proof.
  apply strip_fixed.
  - intros c r H. eapply strip_head. exact H.
  - intros x c H. eapply strip_last. exact H.
Qed.

(** X2: white space around a lap time does not matter: the function gives
    the same result on a text and on the text stripped. *)
Theorem parse_lap_time_ignores_padding (txt : pystr) :
  _parse_lap_time txt = _parse_lap_time (strip txt).
Proof.
  unfold _parse_lap_time. rewrite strip_idempotent.
  destruct (bool_decide (txt = [])) eqn:E1.
  - apply bool_decide_eq_true in E1. subst. reflexivity.
  - destruct (bool_decide (strip txt = [])) eqn:E2; reflexivity.
Qed.

Lemma finite_scan p :
  fst (Pos.iter finite_step (0, true) p) = Z.pos p
  /\ (snd (Pos.iter finite_step (0, true) p) = true ->
      forall y, 0 <= y < Z.pos p -> is_infinity (Z2float y) = false).
Proof.
  induction p as [|p [IH1 IH2]] using Pos.peano_ind.
  - split; [reflexivity|]. cbn [Pos.iter finite_step fst snd].
    intros H y Hy. replace y with 0 by lia.
    destruct (is_infinity (Z2float 0)); [discriminate|reflexivity].
  - rewrite Pos.iter_succ. unfold finite_step at 1 3. cbn [fst snd].
    rewrite IH1. split; [lia|].
    intros H y Hy. apply andb_true_iff in H as [Ha Hb].
    destruct (Z.eq_dec y (Z.pos p)) as [->|Hne].
    + destruct (is_infinity (Z2float (Z.pos p))); [discriminate|reflexivity].
    + apply IH2; [exact Ha|lia].
Qed.

Lemma short_floats_finite z :
  0 <= z < 60040 -> float_of_int z = Ok (Z2float z).
Proof.
  intros Hz. unfold float_of_int.
  rewrite (proj2 (finite_scan 60040)); [reflexivity| |exact Hz].
  vm_compute. reflexivity.
Qed.

Lemma decimal_number_bound d :
  all_digits d -> 0 <= decimal_number d < 10 ^ Z.of_nat (length d).
Proof.
  intros Hd. pose proof (fold_digits_bound d 0 Hd ltac:(lia)) as B.
  unfold decimal_number. lia.
Qed.






(** X4: a text of the grammar whose minutes have at most three digits (or
    that has no minutes) always yields a number: the function returns a
    float and does not raise. *)
Theorem short_lap_time_is_read (txt : pystr) (mins : option pystr)
  (secs : pystr) (frac : option (N * pystr)) :
  lap_wf mins secs frac ->
  strip txt = lap_text mins secs frac ->
  (forall m, mins = Some m -> (length m <= 3)%nat) ->
  exists f, _parse_lap_time txt = Ok (Some f).
Proof.
  intros Hwf Ht Hm.
  rewrite (parse_lap_time_match txt mins secs frac Hwf Ht).
  destruct Hwf as (Hmin & Hs & Hl & _).
  pose proof (decimal_number_bound secs Hs) as Bs.
  assert (Bs' : decimal_number secs < 100).
  { eapply Z.lt_le_trans; [apply Bs|].
    change 100 with (10 ^ 2). apply Z.pow_le_mono_r; lia. }
  rewrite short_floats_finite.
  - cbn. eauto.
  - destruct mins as [m|]; [|lia].
    destruct Hmin as [_ Hmin].
    pose proof (decimal_number_bound m Hmin) as Bm.
    assert (Bm' : decimal_number m < 1000).
    { eapply Z.lt_le_trans; [apply Bm|].
      change 1000 with (10 ^ 3). apply Z.pow_le_mono_r; [lia|].
      specialize (Hm m eq_refl). lia. }
    lia.
Qed.

Lemma short_lap_time_is_read_witness :
  exists f, _parse_lap_time (py " 12:05,7 ") = Ok (Some f).
Proof.
  apply (short_lap_time_is_read (py " 12:05,7 ") (Some (py "12")) (py "05")
           (Some (44%N, py "7"))).
  - repeat split; try discriminate; try (repeat constructor);
      try (right; reflexivity); vm_compute; lia.
  - vm_compute. reflexivity.
  - intros m H. inversion H. vm_compute. lia.
Defined.

(** X5: the comma and the full stop are interchangeable as decimal
    separator: two texts of the grammar that differ in the separator only
    give the same result. *)
Theorem separators_interchangeable (t1 t2 : pystr) (mins : option pystr)
  (secs f : pystr) :
  lap_wf mins secs (Some (46%N, f)) ->
  strip t1 = lap_text mins secs (Some (46%N, f)) ->
  strip t2 = lap_text mins secs (Some (44%N, f)) ->
  _parse_lap_time t1 = _parse_lap_time t2.
Proof.
  intros Hwf H1 H2.
  assert (Hwf' : lap_wf mins secs (Some (44%N, f))).
  { destruct Hwf as (A & B & C & _ & D & E).
    split; [exact A|]. split; [exact B|]. split; [exact C|].
    split; [right; reflexivity|]. split; [exact D|exact E]. }
  rewrite (parse_lap_time_match t1 _ _ _ Hwf H1).
  rewrite (parse_lap_time_match t2 _ _ _ Hwf' H2). reflexivity.
Qed.

Lemma separators_interchangeable_witness :
  _parse_lap_time (py "1:23.45") = _parse_lap_time (py "1:23,45").
Proof.
  apply (separators_interchangeable (py "1:23.45") (py "1:23,45")
           (Some (py "1")) (py "23") (py "45")).
  - repeat split; try discriminate; try (repeat constructor);
      try (left; reflexivity); vm_compute; lia.
  - vm_compute. reflexivity.
  - vm_compute. reflexivity.
Defined.

(** ** Remaining time *)




Lemma map_result_length {A B} (f : A -> result B) l ys :
  map_result f l = Ok ys -> length ys = length l.
Proof.
  revert ys. induction l as [|x r IH]; intros ys; cbn.
  - intros H. inversion H. reflexivity.
  - destruct (f x) as [y|e]; cbn; [|discriminate].
    destruct (map_result f r) as [zs|e]; cbn; [|discriminate].
    intros H. inversion H. cbn. f_equal. apply IH. reflexivity.
Qed.

Lemma map_result_raise {A B} (f : A -> result B) l x e :
  In x l -> f x = Raise e -> exists e', map_result f l = Raise e'.
Proof.
  induction l as [|y r IH]; intros Hin Hx; [contradiction|].
  cbn. destruct Hin as [->|Hin].
  - rewrite Hx. cbn. eauto.
  - destruct (f y) as [v|e0]; cbn; [|eauto].
    destruct (IH Hin Hx) as [e' ->]. cbn. eauto.
Qed.



(** X7: a remaining time of more than three colon-separated parts, or with
    a part that is not an integer, is unknown: the result is [None]. *)
Theorem parse_remaining_unknown (remain_txt : pystr) :
  (3 < length (split_on 58%N remain_txt))%nat
  \/ (exists p e, In p (split_on 58%N remain_txt) /\ py_int p = Raise e) ->
  parse_remaining remain_txt = None.
Proof.
  intros H. unfold parse_remaining.
  destruct remain_txt as [|c r]; [reflexivity|].
  destruct H as [H|(p & e & Hin & Hp)].
  - destruct (map_result py_int (split_on 58%N (c :: r))) as [ys|e] eqn:E;
      [|reflexivity].
    apply map_result_length in E.
    rewrite <- E in H.
    destruct ys as [|a [|b [|d [|x ys]]]]; try reflexivity; cbn in H; lia.
  - destruct (map_result_raise py_int _ p e Hin Hp) as [e' ->]. reflexivity.
Qed.

Lemma parse_remaining_unknown_witness :
  parse_remaining (py "1:02:03:04") = None
  /\ parse_remaining (py "12:3x") = None.
Proof.
  split.
  - apply (parse_remaining_unknown (py "1:02:03:04")). left.
    vm_compute. lia.
  - apply (parse_remaining_unknown (py "12:3x")). right.
    exists (py "3x"), ValueError. split; [|vm_compute; reflexivity].
    vm_compute. right. left. reflexivity.
Defined.

(** ** Dictionaries of the XML rows and synonym lookups *)

Lemma children_fold_absent (lower : pystr -> pystr) (kids : list Element)
  (d : gmap pystr pystr) (k : pystr) :
  Forall (fun c => lower (tag c) <> k) kids ->
  foldl (fun d c => <[lower (tag c) := strip (default [] (etext c))]> d)
        d kids !! k = d !! k.
Proof.
  intros H. revert d. induction H as [|c kids Hc H IH]; intros d.
  - reflexivity.
  - cbn [foldl]. rewrite IH. apply lookup_insert_ne. exact Hc.
Qed.

(** X8: the dictionary of a car node maps a key to the stripped text of
    the last child whose lower-cased tag is that key; a key that no child
    carries is not in the dictionary. *)
Theorem children_dict_lookup (lower : pystr -> pystr) (nd : Element)
  (k : pystr) :
  (Forall (fun c => lower (tag c) <> k) (subelements nd) ->
   children_dict lower nd !! k = None)
  /\ (forall before c after,
         subelements nd = before ++ c :: after ->
         lower (tag c) = k ->
         Forall (fun c' => lower (tag c') <> k) after ->
         children_dict lower nd !! k = Some (strip (default [] (etext c)))).
Proof.
  unfold children_dict. split.
  - intros H. rewrite children_fold_absent by exact H. apply lookup_empty.
  - intros before c after -> Hk Hafter.
    rewrite foldl_app. cbn [foldl].
    rewrite children_fold_absent by exact Hafter.
    rewrite <- Hk. apply lookup_insert_eq.
Qed.

Lemma children_dict_lookup_witness :
  children_dict ascii_lower
    (mkElement (py "car") None
       [mkElement (py "Num") (Some (py "7")) [];
        mkElement (py "NUM") (Some (py " 8 ")) [];
        mkElement (py "Team") None []]) !! py "num"
  = Some (py "8").
Proof.
  apply (proj2 (children_dict_lookup ascii_lower
                  (mkElement (py "car") None
                     [mkElement (py "Num") (Some (py "7")) [];
                      mkElement (py "NUM") (Some (py " 8 ")) [];
                      mkElement (py "Team") None []])
                  (py "num"))
           [mkElement (py "Num") (Some (py "7")) []]
           (mkElement (py "NUM") (Some (py " 8 ")) [])
           [mkElement (py "Team") None []]).
  - reflexivity.
  - vm_compute. reflexivity.
  - constructor; [|constructor]. vm_compute. discriminate.
Defined.

Lemma cget_cons (children : gmap pystr pystr) a rest :
  cget children (a :: rest)
  = match children !! a with
    | Some (c :: v) => c :: v
    | _ => cget children rest
    end.
Proof. reflexivity. Qed.

(** X9: the synonym lookup of the XML rows returns the value of the first
    key, in the order given, that is bound to a non-empty string; it returns
    the empty string exactly when no key is. *)
Theorem cget_first_filled (children : gmap pystr pystr) (alts : list pystr) :
  (cget children alts = [] <-> Forall (blank children) alts)
  /\ (forall before a after v,
         alts = before ++ a :: after ->
         Forall (blank children) before ->
         children !! a = Some v -> v <> [] ->
         cget children alts = v).
Proof.
  split.
  - induction alts as [|a rest IH].
    + split; [constructor|reflexivity].
    + rewrite cget_cons. destruct (children !! a) as [[|c v]|] eqn:E.
      * rewrite IH. split.
        -- intros H. constructor; [right; exact E|exact H].
        -- intros H. inversion H. assumption.
      * split; [discriminate|].
        intros H. inversion H as [|? ? [Hb|Hb] _]; congruence.
      * rewrite IH. split.
        -- intros H. constructor; [left; exact E|exact H].
        -- intros H. inversion H. assumption.
  - intros before a after v -> Hb Ha Hv.
    induction Hb as [|b before [Hb|Hb] _ IH]; cbn [app]; rewrite cget_cons.
    + rewrite Ha. destruct v; [contradiction|reflexivity].
    + rewrite Hb. exact IH.
    + rewrite Hb. exact IH.
Qed.

Lemma cget_first_filled_witness :
  cget (<[py "team" := []]> (<[py "driver" := py "Alice"]> ∅)) xml_who_alts
  = py "Alice".
Proof.
  apply (proj2 (cget_first_filled
                  (<[py "team" := []]> (<[py "driver" := py "Alice"]> ∅))
                  xml_who_alts)
           [py "team"; py "drivers"] (py "driver") [py "pilote"]).
  - reflexivity.
  - constructor; [right; vm_compute; reflexivity|].
    constructor; [left; vm_compute; reflexivity|constructor].
  - vm_compute. reflexivity.
  - discriminate.
Defined.

(** ** Column mapper and table locator *)

Lemma index_of_spec (a : pystr) (L : list pystr) (i : nat) :
  index_of a L = Some i ->
  L !! i = Some a /\ (forall j, (j < i)%nat -> L !! j <> Some a).
Proof.
  revert i. induction L as [|y ys IH]; intros i; cbn; [discriminate|].
  destruct (bool_decide (y = a)) eqn:E.
  - apply bool_decide_eq_true in E. subst y.
    intros H. inversion H. split; [reflexivity|]. intros j Hj. lia.
  - apply bool_decide_eq_false in E.
    destruct (index_of a ys) as [k|]; cbn; [|discriminate].
    intros H. inversion H. subst i.
    destruct (IH k eq_refl) as [H1 H2]. split; [exact H1|].
    intros [|j] Hj; cbn.
    + congruence.
    + apply H2. lia.
Qed.

Lemma index_of_present (a : pystr) (L : list pystr) :
  a ∈ L -> exists i, index_of a L = Some i.
Proof.
  induction L as [|y ys IH]; intros H.
  - inversion H.
  - cbn. destruct (bool_decide (y = a)) eqn:E; [eauto|].
    apply bool_decide_eq_false in E.
    apply elem_of_cons in H as [H|H]; [congruence|].
    destruct (IH H) as [i ->]. cbn. eauto.
Qed.

(** X10: the column lookup returns the position of the first header label
    equal to the first synonym that occurs among the labels; it finds no
    column exactly when no synonym occurs. *)
Theorem idx_first_synonym (labels alts : list pystr) :
  (idx labels alts = None <-> Forall (fun a => a ∉ labels) alts)
  /\ (forall i, idx labels alts = Some i ->
        exists before a after,
          alts = before ++ a :: after
          /\ Forall (fun b => b ∉ labels) before
          /\ labels !! i = Some a
          /\ (forall j, (j < i)%nat -> labels !! j <> Some a)).
Proof.
  split.
  - induction alts as [|a rest IH]; cbn [idx].
    + split; [constructor|reflexivity].
    + destruct (str_in a labels) eqn:E.
      * apply str_in_spec in E. split.
        -- intros H. destruct (index_of_present a labels E) as [i Hi].
           congruence.
        -- intros H. inversion H. contradiction.
      * apply bool_decide_eq_false in E. rewrite IH. split.
        -- intros H. constructor; assumption.
        -- intros H. inversion H. assumption.
  - induction alts as [|a rest IH]; intros i; cbn [idx]; [discriminate|].
    destruct (str_in a labels) eqn:E.
    + intros H. apply index_of_spec in H as [H1 H2].
      exists [], a, rest. repeat split; auto.
    + apply bool_decide_eq_false in E. intros H.
      destruct (IH i H) as (before & b & after & -> & Hb & H1 & H2).
      exists (a :: before), b, after. repeat split; auto.
Qed.

Lemma idx_first_synonym_witness :
  exists before a after,
    drivers_alts = before ++ a :: after
    /\ Forall (fun b => b ∉ [py "num"; py "pilote"; py "team"; py "pilote"])
         before
    /\ [py "num"; py "pilote"; py "team"; py "pilote"] !! 1%nat = Some a
    /\ (forall j, (j < 1)%nat ->
          [py "num"; py "pilote"; py "team"; py "pilote"] !! j <> Some a).
Proof.
  apply (proj2 (idx_first_synonym
                  [py "num"; py "pilote"; py "team"; py "pilote"]
                  drivers_alts) 1%nat).
  vm_compute. reflexivity.
Defined.

Lemma find_first {A} (f : A -> bool) (l : list A) (x : A) :
  List.find f l = Some x ->
  exists before after,
    l = before ++ x :: after /\ Forall (fun y => f y = false) before
    /\ f x = true.
Proof.
  induction l as [|y r IH]; cbn; [discriminate|].
  destruct (f y) eqn:E.
  - intros H. inversion H. subst. exists [], r. repeat split; auto.
  - intros H. destruct (IH H) as (before & after & -> & Hb & Hx).
    exists (y :: before), after. repeat split; auto.
Qed.

Lemma find_nothing {A} (f : A -> bool) (l : list A) :
  List.find f l = None -> Forall (fun y => f y = false) l.
Proof.
  induction l as [|y r IH]; cbn; [constructor|].
  destruct (f y) eqn:E; [discriminate|]. intros H. constructor; auto.
Qed.

(** X11: the table locator returns a table of the document: the first one
    with live headers if there is one, else the first table; it returns
    nothing exactly when the document has no table. *)
Theorem locate_table_choice (lower : pystr -> pystr) (soup : node) :
  (locate_table lower soup = None <-> find_all [py "table"] soup = [])
  /\ (forall t, locate_table lower soup = Some t ->
        exists before after,
          find_all [py "table"] soup = before ++ t :: after
          /\ Forall (fun c => has_live_headers lower c = false) before
          /\ (has_live_headers lower t = true
              \/ (before = []
                  /\ Forall (fun c => has_live_headers lower c = false)
                       after))).
Proof.
  unfold locate_table.
  destruct (List.find (has_live_headers lower) (find_all [py "table"] soup))
    as [t0|] eqn:E.
  - apply find_first in E as (before & after & Hl & Hb & Ht). split.
    + split; [discriminate|]. intros H. rewrite H in Hl.
      destruct before; discriminate.
    + intros t H. inversion H. subst t.
      exists before, after. auto.
  - apply find_nothing in E. split.
    + destruct (find_all [py "table"] soup); cbn; split;
        (reflexivity || discriminate).
    + intros t H. destruct (find_all [py "table"] soup) as [|t1 r];
        [discriminate|].
      cbn in H. inversion H. subst t1.
      exists [], r. repeat split; [constructor|].
      right. split; [reflexivity|]. inversion E. assumption.
Qed.

Lemma locate_table_choice_witness :
  exists before after,
    find_all [py "table"] english_page = before ++ Tag (py "table")
      [tr [th "Pos"; th "Num"; th "Team"; th "Drivers"; th "Last"; th "Best"];
       tr [td "1"; td "7"; td ""; td "Alice"; td "1:23.456"; td "1:22.9"];
       tr [td "2"; td ""; td "Ghost"; td "Nobody"; td "59.1"; td "58"];
       tr [td "3"; td "12"; td "Deux Pattes"; td "Bob"; td "-"; td "DNF"]]
      :: after
    /\ Forall (fun c => has_live_headers ascii_lower c = false) before
    /\ (has_live_headers ascii_lower (Tag (py "table")
      [tr [th "Pos"; th "Num"; th "Team"; th "Drivers"; th "Last"; th "Best"];
       tr [td "1"; td "7"; td ""; td "Alice"; td "1:23.456"; td "1:22.9"];
       tr [td "2"; td ""; td "Ghost"; td "Nobody"; td "59.1"; td "58"];
       tr [td "3"; td "12"; td "Deux Pattes"; td "Bob"; td "-"; td "DNF"]])
        = true
        \/ (before = []
            /\ Forall (fun c => has_live_headers ascii_lower c = false)
                 after)).
Proof.
  apply (proj2 (locate_table_choice ascii_lower english_page)).
  vm_compute. reflexivity.
Defined.

(** ** Source selector *)

(** X12: a body the probe loop accepts is the text of an answer with
    status 200 to a request for one of the candidates, it is not empty and,
    after leading white space, starts with the XML declaration; and when no
    body is accepted every candidate was requested once. *)
Theorem probe_accepts_xml_only (w : World) (n : nat) (cands : list pystr) :
  (forall x m, probe w n cands = (Some x, m) ->
     exists i xu xr,
       (n <= i)%nat /\ m = S i /\ cands !! (i - n)%nat = Some xu
       /\ requests_get w i xu 5 = Ok xr /\ text xr = x
       /\ status_code xr = 200 /\ x <> []
       /\ startswith (py "<?xml") (lstrip x) = true)
  /\ (forall m, probe w n cands = (None, m) -> m = (n + length cands)%nat).
Proof.
  revert n. induction cands as [|xu rest IH]; intros n; cbn [probe].
  - split; [discriminate|]. intros m H. inversion H. cbn. lia.
  - destruct (IH (S n)) as [IH1 IH2].
    assert (Hrest : forall x m, probe w (S n) rest = (Some x, m) ->
      exists i xu0 xr,
        (n <= i)%nat /\ m = S i /\ (xu :: rest) !! (i - n)%nat = Some xu0
        /\ requests_get w i xu0 5 = Ok xr /\ text xr = x
        /\ status_code xr = 200 /\ x <> []
        /\ startswith (py "<?xml") (lstrip x) = true).
    { intros x m H.
      destruct (IH1 x m H) as (i & xu0 & xr & Hi & Hm & Hl & Hr).
      exists i, xu0, xr. split; [lia|]. split; [exact Hm|].
      split; [|exact Hr].
      replace (i - n)%nat with (S (i - S n)) by lia. exact Hl. }
    assert (Hnone : forall m, probe w (S n) rest = (None, m) ->
                      m = (n + length (xu :: rest))%nat).
    { intros m H. rewrite (IH2 m H). cbn. lia. }
    destruct (requests_get w n xu 5) as [xr|e] eqn:Er; [|auto].
    destruct (is_xml_response xr) eqn:Ex; [|auto].
    split; [|discriminate].
    intros x m H. inversion H. subst.
    unfold is_xml_response in Ex.
    apply andb_true_iff in Ex as [Ex Hs].
    apply andb_true_iff in Ex as [Hc Hne].
    exists n, xu, xr. split; [lia|]. split; [reflexivity|].
    split; [replace (n - n)%nat with O by lia; reflexivity|].
    split; [exact Er|]. split; [reflexivity|].
    split; [apply Z.eqb_eq; exact Hc|]. split; [|exact Hs].
    destruct (text xr); [discriminate|discriminate].
Qed.

Lemma probe_accepts_xml_only_witness :
  exists i xu xr,
    (0 <= i)%nat /\ 1%nat = S i
    /\ xml_candidates DATA_SOURCE_URL !! (i - 0)%nat = Some xu
    /\ requests_get (xml_world bare_root) i xu 5 = Ok xr
    /\ text xr = py "<?xml version='1.0'?><live/>"
    /\ status_code xr = 200 /\ py "<?xml version='1.0'?><live/>" <> []
    /\ startswith (py "<?xml") (lstrip (py "<?xml version='1.0'?><live/>"))
       = true.
Proof.
  apply (proj1 (probe_accepts_xml_only (xml_world bare_root) 0
                  (xml_candidates DATA_SOURCE_URL))).
  vm_compute. reflexivity.
Defined.

(** ** The cycle as a whole *)

(** With no XML at hand the extraction of the main module is that of the
    plugin. *)
Lemma extract_html_same (w : World) (soup : node) :
  Main.extract w None (Some soup) = Plugin.extract w soup.
Proof.
  unfold Main.extract, Plugin.extract. cbn.
  destruct (locate_table (str_lower w) soup); reflexivity.
Qed.

(** X13: when no XML document is obtained (every probe fails, or the
    accepted body does not parse) and the page request answers as it does
    when made first, a cycle of the main module returns what a cycle of the
    plugin module returns, and leaves the same state. *)
Theorem main_falls_back_to_plugin (w : World) (now : Z) (self : Service)
  (xml_text : option pystr) (n : nat) :
  probe w O (xml_candidates DATA_SOURCE_URL) = (xml_text, n) ->
  (forall x, xml_text = Some x -> exists e, ET_fromstring w x = Raise e) ->
  requests_get w n DATA_SOURCE_URL 10 = requests_get w O DATA_SOURCE_URL 10 ->
  Main.getRaceState w now self = Plugin.getRaceState w now self.
Proof.
  intros Hp Hx Hr. unfold Main.getRaceState, Plugin.getRaceState.
  rewrite Hp.
  assert (Hroot : match xml_text with
                  | Some x => match ET_fromstring w x with
                              | Ok r => Some r
                              | Raise _ => None
                              end
                  | None => None
                  end = None).
  { destruct xml_text as [x|]; [|reflexivity].
    destruct (Hx x eq_refl) as [e ->]. reflexivity. }
  rewrite Hroot.
  assert (Hf : fetch_html w n DATA_SOURCE_URL = fetch_html w O DATA_SOURCE_URL).
  { unfold fetch_html. rewrite Hr. reflexivity. }
  rewrite Hf. destruct (fetch_html w O DATA_SOURCE_URL) as [html|e];
    [|reflexivity].
  rewrite extract_html_same. reflexivity.
Qed.

Lemma main_falls_back_to_plugin_witness :
  Main.getRaceState (html_world 200 english_page) 1000 init
  = Plugin.getRaceState (html_world 200 english_page) 1000 init.
Proof.
  apply (main_falls_back_to_plugin (html_world 200 english_page) 1000 init
           None 2%nat).
  - vm_compute. reflexivity.
  - intros x H. discriminate H.
  - reflexivity.
Defined.






(** X15: in the result of a cycle that returns, the clock is the current
    time, and [source_ok] is the value the cycle leaves in
    [_last_fetch_ok]; in both modules. *)
Theorem result_clock_and_health (w : World) (now : Z) (self self' : Service)
  (rs : RaceState) :
  Main.getRaceState w now self = (Ok rs, self')
  \/ Plugin.getRaceState w now self = (Ok rs, self') ->
  clock (session rs) = now
  /\ source_ok (session rs) = _last_fetch_ok self'.
Proof.
  assert (Hplugin : forall n,
    match fetch_html w n DATA_SOURCE_URL with
    | Raise _ => (Ok (fetch_failed (set_last_fetch_ok false self) now),
                  set_last_fetch_ok false self)
    | Ok html =>
        match Plugin.extract w (BeautifulSoup w html) with
        | Raise e => (Raise e, set_last_fetch_ok true self)
        | Ok (sn, fl, rem, cs) =>
            (Ok {| cars := cs;
                   session := session_of
                                (update_cache sn fl rem
                                   (set_last_fetch_ok true self)) now true |},
             update_cache sn fl rem (set_last_fetch_ok true self))
        end
    end = (Ok rs, self') ->
    clock (session rs) = now /\ source_ok (session rs) = _last_fetch_ok self').
  { intros n. destruct (fetch_html w n DATA_SOURCE_URL) as [html|e'].
    - destruct (Plugin.extract w _) as [[[[sn fl] rem] cs]|e''];
        [|discriminate].
      intros H. inversion H. subst. split; reflexivity.
    - intros H. inversion H. subst. split; reflexivity. }
  intros [H|H].
  - revert H. unfold Main.getRaceState.
    destruct (probe w 0 (xml_candidates DATA_SOURCE_URL)) as [xml_text n].
    destruct xml_text as [x|]; [destruct (ET_fromstring w x) as [r|e']|].
    + rewrite extract_without_soup. discriminate.
    + intros H. apply (Hplugin n). revert H.
      destruct (fetch_html w n DATA_SOURCE_URL) as [html|e'']; [|auto].
      rewrite extract_html_same. auto.
    + intros H. apply (Hplugin n). revert H.
      destruct (fetch_html w n DATA_SOURCE_URL) as [html|e'']; [|auto].
      rewrite extract_html_same. auto.
  - apply (Hplugin O). exact H.
Qed.

Lemma result_clock_and_health_witness :
  clock (session (fetch_failed init 1000)) = 1000
  /\ source_ok (session (fetch_failed init 1000)) = _last_fetch_ok init.
Proof.
  apply (result_clock_and_health dead_world 1000 init init
           (fetch_failed init 1000)).
  left. vm_compute. reflexivity.
Defined.

Lemma find_index_none {A} (f : A -> bool) (l : list A) :
  Forall (fun x => f x = false) l -> find_index f l = None.
Proof.
  induction 1 as [|x r Hx H IH]; cbn; [reflexivity|].
  rewrite Hx, IH. reflexivity.
Qed.

Lemma find_index_split {A} (f : A -> bool) (l : list A) (k : nat) :
  find_index f l = Some k ->
  exists before h after, l = before ++ h :: after /\ length before = k.
Proof.
  revert k. induction l as [|x r IH]; intros k; cbn; [discriminate|].
  destruct (f x).
  - intros H. inversion H. exists [], x, r. split; reflexivity.
  - destruct (find_index f r) as [k'|]; cbn; [|discriminate].
    intros H. inversion H. subst k.
    destruct (IH k' eq_refl) as (before & h & after & -> & Hl).
    exists (x :: before), h, after. split; [reflexivity|]. cbn. lia.
Qed.

Lemma fetch_html_answer (w : World) (r : Response) (n : nat) :
  page_answers w r -> ~ (400 <= status_code r < 600) ->
  fetch_html w n DATA_SOURCE_URL = Ok (text r).
Proof.
  intros Hr Hs. unfold fetch_html. rewrite (Hr n). cbn.
  unfold raise_for_status.
  destruct (400 <=? status_code r) eqn:E1; [|reflexivity].
  destruct (status_code r <? 600) eqn:E2; [|reflexivity].
  apply Z.leb_le in E1. apply Z.ltb_lt in E2. lia.
Qed.

Lemma session_of_fetch_flag (self : Service) (b : bool) (now : Z) (ok : bool) :
  session_of (update_cache None None None (set_last_fetch_ok b self)) now ok
  = session_of self now ok.
Proof. reflexivity. Qed.

(** X16: a page without a table, or whose table has no row that looks like
    a header row, is not an error: with the XML probes failing and the page
    answering with a status that is not 4xx/5xx, the cycle returns no cars
    and [source_ok = true], with the session fields of the cache; in both
    modules. *)
Theorem page_without_rows (w : World) (now : Z) (self : Service)
  (r : Response) :
  xml_unavailable w ->
  page_answers w r ->
  ~ (400 <= status_code r < 600) ->
  find_all [py "table"] (BeautifulSoup w (text r)) = []
  \/ (exists t,
        locate_table (str_lower w) (BeautifulSoup w (text r)) = Some t
        /\ Forall (fun row => is_header_row (str_lower w) row = false)
             (find_all [py "tr"] t)) ->
  Main.getRaceState w now self
  = (Ok {| cars := []; session := session_of self now true |},
     set_last_fetch_ok true self)
  /\ Plugin.getRaceState w now self
     = (Ok {| cars := []; session := session_of self now true |},
        set_last_fetch_ok true self).
Proof.
  intros Hx Hr Hs Hdoc.
  assert (Hp : Plugin.extract w (BeautifulSoup w (text r))
               = Ok (None, None, None, [])).
  { unfold Plugin.extract. destruct Hdoc as [Hno|(t & Ht & Hrows)].
    - unfold locate_table. rewrite Hno. reflexivity.
    - rewrite Ht. unfold html_cars. rewrite (find_index_none _ _ Hrows).
      reflexivity. }
  split.
  - unfold Main.getRaceState. rewrite (probe_failing _ _ _ Hx).
    rewrite (fetch_html_answer w r _ Hr Hs).
    rewrite extract_html_same, Hp. rewrite update_cache_nothing.
    reflexivity.
  - unfold Plugin.getRaceState. rewrite (fetch_html_answer w r _ Hr Hs).
    rewrite Hp. rewrite update_cache_nothing. reflexivity.
Qed.

Lemma page_without_rows_witness :
  Main.getRaceState (html_world 200 (Tag (py "[document]") [])) 1000 init
  = (Ok {| cars := []; session := session_of init 1000 true |},
     set_last_fetch_ok true init).
Proof.
  apply (page_without_rows (html_world 200 (Tag (py "[document]") []))
           1000 init {| status_code := 200; text := py "<html>" |}).
  - intros i xu _. exact I.
  - intros n. reflexivity.
  - cbn. lia.
  - left. reflexivity.
Defined.

(** X17: over two successive cache updates the later fresh value wins, and
    a field no update sets keeps its old value; the session returned after
    them shows these values (name ['2CVRT'] and flag [''] by default).
    Updating twice with the same values is updating once. *)
Theorem later_fresh_value_wins (sn1 fl1 sn2 fl2 : option pystr)
  (rem1 rem2 : option Z) (self : Service) (now : Z) (ok : bool) :
  let after := update_cache sn2 fl2 rem2 (update_cache sn1 fl1 rem1 self) in
  name (session_of after now ok)
  = (if is_set sn2 then default [] sn2
     else if is_set sn1 then default [] sn1
     else name (session_of self now ok))
  /\ flag (session_of after now ok)
     = (if is_set fl2 then default [] fl2
        else if is_set fl1 then default [] fl1
        else flag (session_of self now ok))
  /\ remaining (session_of after now ok)
     = match rem2, rem1 with
       | Some z, _ => Some z
       | None, Some z => Some z
       | None, None => remaining (session_of self now ok)
       end
  /\ update_cache sn1 fl1 rem1 (update_cache sn1 fl1 rem1 self)
     = update_cache sn1 fl1 rem1 self.
Proof.
  destruct self as [ok0 n0 f0 r0].
  destruct sn1 as [[|? ?]|], sn2 as [[|? ?]|], fl1 as [[|? ?]|],
    fl2 as [[|? ?]|], rem1, rem2; repeat split; reflexivity.
Qed.

(** ** Row extractor *)

Lemma data_rows_count col_idx k started i trs cs cs' :
  data_rows col_idx k started i trs cs = Ok cs' ->
  (length cs' <= length cs + length trs)%nat.
Proof.
  revert started i cs. induction trs as [|t rest IH]; intros started i cs.
  - cbn. intros H. inversion H. lia.
  - cbn [data_rows length].
    assert (Hskip : forall st,
      data_rows col_idx k st (S i) rest cs = Ok cs' ->
      (length cs' <= length cs + S (length rest))%nat).
    { intros st H. apply IH in H. lia. }
    destruct (Nat.eqb i k); [apply Hskip|].
    destruct (negb started); [apply Hskip|].
    destruct (find_all [py "td"] t) as [|c0 tds]; [apply Hskip|].
    destruct (get col_idx (c0 :: tds) (py "num")) as [|c1 nm];
      [apply Hskip|].
    destruct (_parse_lap_time (get col_idx (c0 :: tds) (py "last")));
      cbn; [|discriminate].
    destruct (_parse_lap_time (get col_idx (c0 :: tds) (py "best")));
      cbn; [|discriminate].
    intros H. apply IH in H. rewrite length_app in H. cbn in H. lia.
Qed.

(** X18: the table yields at most one car per row after the header row:
    the number of cars is less than the number of rows, the header row and
    the rows before it giving none. *)
Theorem html_cars_count (lower : pystr -> pystr) (table : node)
  (cs : list CarRow) :
  html_cars lower table = Ok cs ->
  (length cs <= pred (length (find_all [py "tr"] table)))%nat.
Proof.
  unfold html_cars.
  destruct (find_index (is_header_row lower) (find_all [py "tr"] table))
    as [k|] eqn:E.
  - destruct (find_index_split _ _ _ E) as (before & h & after & Hl & Hk).
    rewrite Hl. subst k. rewrite list_lookup_middle by reflexivity. rewrite (data_rows_skip_header _ before h after O).
    intros H. apply data_rows_count in H.
    rewrite length_app. cbn in *. lia.
  - intros H. inversion H. cbn. lia.
Qed.

Lemma html_cars_count_witness :
  (length ([{| car_num := py "7"; car_state := []; car_driver := py "Alice";
               car_last_lap := None; car_best_lap := None |}])
   <= pred (length (find_all [py "tr"] plain_drivers_table)))%nat.
Proof.
  apply (html_cars_count ascii_lower plain_drivers_table).
  vm_compute. reflexivity.
Defined.

(** ** Derived addresses *)

Lemma break_at_spec sep s x y :
  break_at sep s = (x, y) ->
  (sep ∉ x)
  /\ match y with Some z => s = x ++ sep :: z | None => s = x end.
Proof.
  revert x y. induction s as [|c r IH]; intros x y; cbn.
  - intros H. inversion H. split; [apply not_elem_of_nil|reflexivity].
  - destruct ((c =? sep)%N) eqn:E.
    + apply N.eqb_eq in E. subst c. intros H. inversion H.
      split; [apply not_elem_of_nil|reflexivity].
    + apply N.eqb_neq in E. destruct (break_at sep r) as [a b].
      intros H. inversion H. subst.
      destruct (IH a y eq_refl) as [Hn Hs]. split.
      * apply not_elem_of_cons. split; [congruence|exact Hn].
      * destruct y; cbn; f_equal; exact Hs.
Qed.

Lemma break_at_found sep x z :
  sep ∉ x -> break_at sep (x ++ sep :: z) = (x, Some z).
Proof.
  induction x as [|c r IH]; intros H; cbn.
  - rewrite N.eqb_refl. reflexivity.
  - apply not_elem_of_cons in H as [H1 H2].
    replace ((c =? sep)%N) with false by (symmetry; apply N.eqb_neq; congruence).
    rewrite IH by exact H2. reflexivity.
Qed.

Lemma break_at_missing sep x : sep ∉ x -> break_at sep x = (x, None).
Proof.
  induction x as [|c r IH]; intros H; cbn; [reflexivity|].
  apply not_elem_of_cons in H as [H1 H2].
  replace ((c =? sep)%N) with false by (symmetry; apply N.eqb_neq; congruence).
  rewrite IH by exact H2. reflexivity.
Qed.

Lemma not_elem_of_rev (sep : N) (s : pystr) : sep ∉ s -> sep ∉ rev s.
Proof.
  intros H Hin. apply H. apply list_elem_of_In. apply in_rev.
  apply list_elem_of_In. exact Hin.
Qed.

Lemma rsplit1_found sep a b :
  sep ∉ b -> rsplit1 sep (a ++ sep :: b) = [a; b].
Proof.
  intros H. unfold rsplit1.
  replace (rev (a ++ sep :: b)) with (rev b ++ sep :: rev a).
  2:{ rewrite rev_app_distr. cbn. rewrite <- app_assoc. reflexivity. }
  rewrite break_at_found by (apply not_elem_of_rev; exact H).
  rewrite !rev_involutive. reflexivity.
Qed.

Lemma rsplit1_missing sep s : sep ∉ s -> rsplit1 sep s = [s].
Proof.
  intros H. unfold rsplit1.
  rewrite break_at_missing by (apply not_elem_of_rev; exact H).
  reflexivity.
Qed.

Lemma rsplit1_last_part sep s :
  exists a, default [] (last (rsplit1 sep s)) = a
            /\ (forall c, c ∈ a -> c ∈ s).
Proof.
  unfold rsplit1. destruct (break_at sep (rev s)) as [x y] eqn:E.
  apply break_at_spec in E as [_ E]. destruct y as [z|].
  - exists (rev x). split; [reflexivity|]. intros c Hc.
    apply list_elem_of_In. apply in_rev. rewrite E.
    apply in_or_app. left. apply in_rev. apply list_elem_of_In. exact Hc.
  - exists s. split; [reflexivity|]. auto.
Qed.

Lemma contains_char s c : contains s [c] = true -> c ∈ s.
Proof.
  induction s as [|b r IH]; cbn.
  - discriminate.
  - intros H. apply orb_true_iff in H as [H|H].
    + apply andb_true_iff in H as [H _]. apply N.eqb_eq in H. subst.
      apply elem_of_cons. left. reflexivity.
    + apply elem_of_cons. right. apply IH. exact H.
Qed.

(** X19: the first derived address is the page address with everything
    after its last full stop replaced by [xml]; there are at most two
    candidates; and an address without a full stop gives the single
    candidate address + ['.xml']. *)
Theorem xml_candidates_shape (url : pystr) :
  (forall base ext,
      url = base ++ 46%N :: ext -> 46%N ∉ ext ->
      exists rest, xml_candidates url = (base ++ py ".xml") :: rest
                   /\ (length rest <= 1)%nat)
  /\ (46%N ∉ url -> xml_candidates url = [url ++ py ".xml"]).
Proof.
  split.
  - intros base ext -> Hext. unfold xml_candidates.
    rewrite (rsplit1_found 46%N base ext Hext). cbn [head default].
    eexists. split; [reflexivity|].
    destruct (contains _ _); cbn; lia.
  - intros H. unfold xml_candidates.
    rewrite (rsplit1_missing 46%N url H). cbn [head default].
    destruct (rsplit1_last_part 47%N url) as (a & -> & Ha).
    destruct (contains a (py ".")) eqn:E; [|reflexivity].
    exfalso. apply H, Ha. apply contains_char. exact E.
Qed.

Lemma xml_candidates_shape_witness :
  exists rest,
    xml_candidates (py "http://host/dir/live.htm")
    = (py "http://host/dir/live" ++ py ".xml") :: rest
    /\ (length rest <= 1)%nat.
Proof.
  apply (proj1 (xml_candidates_shape (py "http://host/dir/live.htm"))
           (py "http://host/dir/live") (py "htm")).
  - reflexivity.
  - apply (proj1 (bool_decide_eq_false _)). vm_compute. reflexivity.
Defined.

(** ** Column dictionary and page request *)



